(** * The event bus of [core/events.py]

  A shallow embedding of the [EventBus] class: the handler registry, the
  stream naming, [publish], [request] and the consumer loop, run against
  a model of the Redis stream commands the class calls.  Python
  dictionaries built by the class are insertion-ordered association
  lists; the Redis key space is a finite map from stream names. *)

From Stdlib Require Import ZArith List String Ascii Lia.
From stdpp Require Import base option list strings pretty gmap.

Local Open Scope string_scope.
Local Open Scope list_scope.
Local Open Scope Z_scope.

(** ** Python strings: [str.split] and f-string concatenation *)

Module PyStr.

(** [s.split(sep)] for a one-character separator: never an empty list. *)
Fixpoint split (sep : ascii) (s : string) : list string :=
  match s with
  | EmptyString => [EmptyString]
  | String c rest =>
      if Ascii.eqb c sep then EmptyString :: split sep rest
      else match split sep rest with
           | seg :: segs => String c seg :: segs
           | [] => [String c EmptyString]
           end
  end.

(** [c in s] *)
Fixpoint contains (c : ascii) (s : string) : bool :=
  match s with
  | EmptyString => false
  | String c' rest => Ascii.eqb c' c || contains c rest
  end.

(** [l[-1]] on a list of strings (the empty list has no last item; the
    lists [split] returns are never empty). *)
Definition last_item (l : list string) : string := List.last l EmptyString.

End PyStr.

(** ** Python dictionaries with string keys, in insertion order *)

Module PyDict.

Definition t (V : Type) : Type := list (string * V).

(** [d\[k\] = v]: overwrite in place, or append a new key. *)
Fixpoint set {V} (k : string) (v : V) (d : t V) : t V :=
  match d with
  | [] => [(k, v)]
  | (k', v') :: d' =>
      if String.eqb k' k then (k, v) :: d' else (k', v') :: set k v d'
  end.

(** [d.get(k)] *)
Fixpoint get {V} (k : string) (d : t V) : option V :=
  match d with
  | [] => None
  | (k', v') :: d' => if String.eqb k' k then Some v' else get k d'
  end.

(** [d.get(k, dflt)] *)
Definition get_default {V} (k : string) (dflt : V) (d : t V) : V :=
  match get k d with Some v => v | None => dflt end.

(** [d.keys()] *)
Definition keys {V} (d : t V) : list string := map fst d.

(** [{key(x): val(x) for x in xs}] *)
Definition comprehension {A V} (key : A -> string) (val : A -> V)
    (xs : list A) : t V :=
  fold_left (fun d x => set (key x) (val x) d) xs [].

(** The entries stored under one key. *)
Definition entries_for {V} (k : string) (d : t V) : t V :=
  List.filter (fun kv => String.eqb (fst kv) k) d.

End PyDict.

(** ** Exceptions, outcomes and the interpreter's services *)

(** The exceptions that reach the bus: raised by the Redis client, by
    [json], or by a handler. *)
Inductive exn : Type :=
| ConnectionError (msg : string)
| ResponseError (msg : string)
| DataError (msg : string)
| TypeError (msg : string)
| JSONDecodeError (msg : string)
| HandlerError (msg : string).

(** [str(e)], as interpolated by the log lines. *)
Definition exn_str (e : exn) : string :=
  match e with
  | ConnectionError m | ResponseError m | DataError m
  | TypeError m | JSONDecodeError m | HandlerError m => m
  end.

(** How a call ends: it returns, it raises, or it is still running when
    the step budget of the model is spent. *)
Inductive outcome (A : Type) : Type :=
| Ok (a : A)
| Raise (e : exn)
| Fuel.
Arguments Ok {A} a.
Arguments Raise {A} e.
Arguments Fuel {A}.

(** What the bus takes from Python itself: the universe of values carried
    in payloads, [None], [str] values, the [json] codec, the [uuid4]
    generator (as the sequence of its draws) and [isoformat] of a clock
    reading.  [json_dumps] and [json_loads] answer [None] where the Python
    function raises. *)
Class Python : Type := {
  Any : Type;
  py_None : Any;
  py_str : string -> Any;
  json_dumps : PyDict.t Any -> option string;
  json_loads : string -> option Any;
  uuid4 : nat -> string;
  isoformat : Z -> string
}.

(** ** The Redis stream commands the bus calls *)

Module Redis.

(** A stream entry: its id (a sequence number) and its field map. *)
Definition entry : Type := nat * PyDict.t string.

(** A consumer group on one stream: the first id not yet delivered with
    [">"], and the ids delivered but not acknowledged. *)
Record group : Type := {
  cursor : nat;
  pending : gset nat
}.

Record t : Type := {
  streams : gmap string (list entry);
  groups : gmap (string * string) group;
  next_id : nat
}.

Definition empty : t := {| streams := ∅; groups := ∅; next_id := 0 |}.

(** XADD: append to the stream, creating it when absent. *)
Definition append (s : string) (f : PyDict.t string) (r : t) : t :=
  {| streams := <[s := default [] (streams r !! s) ++ [(next_id r, f)]]> (streams r);
     groups := groups r;
     next_id := S (next_id r) |}.

(** DEL: the key goes, and the groups of the stream with it. *)
Definition del (k : string) (r : t) : t :=
  {| streams := delete k (streams r);
     groups := filter (fun kg => fst (fst kg) ≠ k) (groups r);
     next_id := next_id r |}.

(** XREAD from id 0 with COUNT: the oldest entries of the stream. *)
Definition read (s : string) (count : nat) (r : t) : list (string * list entry) :=
  match streams r !! s with
  | Some (e :: es) => [(s, take count (e :: es))]
  | _ => []
  end.

Definition busygroup : exn :=
  ResponseError "BUSYGROUP Consumer Group name already exists".

Definition nogroup : exn :=
  ResponseError "NOGROUP No such key or consumer group".

(** XGROUP CREATE ... 0 MKSTREAM *)
Definition group_create (s g : string) (r : t) : outcome unit * t :=
  match groups r !! (s, g) with
  | Some _ => (Raise busygroup, r)
  | None =>
      (Ok tt,
       {| streams := <[s := default [] (streams r !! s)]> (streams r);
          groups := <[(s, g) := {| cursor := 0; pending := ∅ |}]> (groups r);
          next_id := next_id r |})
  end.

(** The entries of a stream a group has not been given yet, at most
    [count] of them. *)
Definition undelivered (s g : string) (count : nat) (r : t) : list entry :=
  match groups r !! (s, g) with
  | Some gr =>
      take count (List.filter (fun e => Nat.leb (cursor gr) (fst e))
                              (default [] (streams r !! s)))
  | None => []
  end.

(** Handing a batch to a consumer: the cursor moves past it and its ids
    enter the pending set. *)
Definition deliver (s g : string) (batch : list entry) (r : t) : t :=
  {| streams := streams r;
     groups := alter (fun gr =>
                 {| cursor := S (List.last (map fst batch) (cursor gr));
                    pending := pending gr ∪ list_to_set (map fst batch) |})
               (s, g) (groups r);
     next_id := next_id r |}.

(** XREADGROUP with [">"] on every stream of [ss], in order. *)
Fixpoint read_group (g : string) (ss : list string) (count : nat) (r : t)
  : list (string * list entry) * t :=
  match ss with
  | [] => ([], r)
  | s :: ss' =>
      match undelivered s g count r with
      | [] => read_group g ss' count r
      | batch =>
          let '(rest, r') := read_group g ss' count (deliver s g batch r) in
          ((s, batch) :: rest, r')
      end
  end.

(** XACK *)
Definition ack (s g : string) (id : nat) (r : t) : t :=
  {| streams := streams r;
     groups := alter (fun gr =>
                 {| cursor := cursor gr; pending := pending gr ∖ {[id]} |})
               (s, g) (groups r);
     next_id := next_id r |}.

(** The pending set of a group (empty when there is no such group). *)
Definition pending_of (s g : string) (r : t) : gset nat :=
  match groups r !! (s, g) with
  | Some gr => pending gr
  | None => ∅
  end.

End Redis.

(** ** The world the bus runs in, and computations over it *)

Inductive level : Type := INFO | WARNING | ERROR.

(** A call made on [self.client], recorded when it is made. *)
Inductive call : Type :=
| Xadd (stream : string) (fields : PyDict.t string)
| Xread (stream : string)
| Delete (key : string)
| XgroupCreate (stream group : string)
| Xreadgroup (group consumer : string) (streams : list string)
| Xack (stream group : string) (id : nat).

(** [store] is the Redis server; [now] the clock in milliseconds, read by
    the event loop's [time()] and by [datetime.now]; [drawn] counts the
    uuids generated so far.  [faults] scripts the awaits of the bus, one
    entry per call sent to the server and per [asyncio.sleep], in order:
    how many milliseconds the await takes beyond its nominal duration
    (the round trip to the server, the scheduling of the event loop,
    what the interpreter computes around the await, a connection attempt
    that times out), and the exception the client call raises, if any.
    A sleep never raises.  A script that has run out is a connection
    that answers at once and never fails.  [arrivals] scripts the other
    clients: its head is what they append while the next blocking read
    waits.  [calls] and [log] record what the bus did. *)
Record world : Type := {
  store : Redis.t;
  now : Z;
  drawn : nat;
  faults : list (Z * option exn);
  arrivals : list (list (string * PyDict.t string));
  calls : list call;
  log : list (level * string)
}.

Definition with_store (r : Redis.t) (w : world) : world :=
  {| store := r; now := now w; drawn := drawn w; faults := faults w;
     arrivals := arrivals w; calls := calls w; log := log w |}.

Definition with_now (t : Z) (w : world) : world :=
  {| store := store w; now := t; drawn := drawn w; faults := faults w;
     arrivals := arrivals w; calls := calls w; log := log w |}.

Definition with_drawn (n : nat) (w : world) : world :=
  {| store := store w; now := now w; drawn := n; faults := faults w;
     arrivals := arrivals w; calls := calls w; log := log w |}.

Definition with_arrivals (a : list (list (string * PyDict.t string)))
    (w : world) : world :=
  {| store := store w; now := now w; drawn := drawn w; faults := faults w;
     arrivals := a; calls := calls w; log := log w |}.

Definition with_log (l : list (level * string)) (w : world) : world :=
  {| store := store w; now := now w; drawn := drawn w; faults := faults w;
     arrivals := arrivals w; calls := calls w; log := l |}.

(** The exception the next client call raises, if the connection fails
    it. *)
Definition fails_next (w : world) : option exn :=
  match faults w with
  | (_, Some e) :: _ => Some e
  | _ => None
  end.

(** How long the next await takes beyond its nominal duration; time
    never runs backwards. *)
Definition lag_next (w : world) : Z :=
  match faults w with
  | (d, _) :: _ => Z.max 0 d
  | [] => 0
  end.

(** The next client call [c] is on its way to the server: it is
    recorded, takes the head of the script and the time that entry
    says. *)
Definition attempted (c : call) (w : world) : world :=
  {| store := store w; now := now w + lag_next w; drawn := drawn w;
     faults := tail (faults w); arrivals := arrivals w;
     calls := calls w ++ [c]; log := log w |}.

(** A call the client library refuses before anything is sent: it is
    recorded, and the connection is not met. *)
Definition refused (c : call) (w : world) : world :=
  {| store := store w; now := now w; drawn := drawn w;
     faults := faults w; arrivals := arrivals w;
     calls := calls w ++ [c]; log := log w |}.

(** The world after [asyncio.sleep] of [ms] milliseconds: the sleep
    lasts [ms] and what the head of the script adds. *)
Definition slept (ms : Z) (w : world) : world :=
  {| store := store w; now := now w + ms + lag_next w; drawn := drawn w;
     faults := tail (faults w); arrivals := arrivals w;
     calls := calls w; log := log w |}.

(** [w'] has the calls of [w] and possibly more after them. *)
Definition extends (w w' : world) : Prop := exists l, calls w' = calls w ++ l.

(** The same, every added call satisfying [P]. *)
Definition extends_by (P : call -> Prop) (w w' : world) : Prop :=
  exists l, calls w' = calls w ++ l /\ Forall P l.

Definition M (A : Type) : Type := world -> outcome A * world.

Definition ret {A} (a : A) : M A := fun w => (Ok a, w).

Definition raise {A} (e : exn) : M A := fun w => (Raise e, w).

Definition bind {A B} (m : M A) (k : A -> M B) : M B := fun w =>
  match m w with
  | (Ok a, w') => k a w'
  | (Raise e, w') => (Raise e, w')
  | (Fuel, w') => (Fuel, w')
  end.

Notation "'let*' x ':=' m 'in' k" := (bind m (fun x => k))
  (at level 10, x name, m at level 100, k at level 200).

(** [try: m  except Exception as e: h e] *)
Definition try_except {A} (m : M A) (h : exn -> M A) : M A := fun w =>
  match m w with
  | (Raise e, w') => h e w'
  | r => r
  end.

(** [try: m  finally: fin]: the clean-up runs however [m] ends, and an
    exception of the clean-up replaces the outcome of [m]. *)
Definition try_finally {A} (m : M A) (fin : M unit) : M A := fun w =>
  match m w with
  | (Fuel, w') => (Fuel, w')
  | (r, w') =>
      match fin w' with
      | (Ok _, w'') => (r, w'')
      | (Raise e, w'') => (Raise e, w'')
      | (Fuel, w'') => (Fuel, w'')
      end
  end.

(** [for x in l: f x] *)
Fixpoint for_each {A} (f : A -> M unit) (l : list A) : M unit :=
  match l with
  | [] => ret tt
  | x :: xs => let* _ := f x in for_each f xs
  end.

Definition logger (lv : level) (msg : string) : M unit := fun w =>
  (Ok tt, with_log (log w ++ [(lv, msg)]) w).

(** [asyncio.get_event_loop().time()], in milliseconds *)
Definition loop_time : M Z := fun w => (Ok (now w), w).

(** [asyncio.sleep], in milliseconds *)
Definition sleep (ms : Z) : M unit := fun w => (Ok tt, slept ms w).

(** ** The asynchronous Redis client *)

Module Client.

(** Every call sent meets the connection: it raises when the script
    says so, and leaves the server untouched then. *)
Definition attempt (c : call) : M unit := fun w =>
  match fails_next w with
  | Some e => (Raise e, attempted c w)
  | None => (Ok tt, attempted c w)
  end.

(** What the other clients append while a blocking read waits. *)
Definition others_append : M unit := fun w =>
  match arrivals w with
  | [] => (Ok tt, w)
  | batch :: rest =>
      (Ok tt,
       with_arrivals rest
         (with_store
            (fold_left (fun r sf => Redis.append (fst sf) (snd sf) r)
                       batch (store w)) w))
  end.

Definition xadd (s : string) (f : PyDict.t string) : M nat :=
  let* _ := attempt (Xadd s f) in
  fun w => (Ok (Redis.next_id (store w)), with_store (Redis.append s f (store w)) w).

Definition delete (k : string) : M unit :=
  let* _ := attempt (Delete k) in
  fun w => (Ok tt, with_store (Redis.del k (store w)) w).

(** [xread({s: "0"}, count=count, block=block)]: entries already there
    come back after the round trip; otherwise the call waits the whole
    block window besides and comes back empty. *)
Definition xread (s : string) (count : nat) (block : Z)
  : M (list (string * list Redis.entry)) :=
  let* _ := attempt (Xread s) in
  let* _ := others_append in
  fun w =>
    match Redis.read s count (store w) with
    | [] => (Ok [], with_now (now w + block) w)
    | res => (Ok res, w)
    end.

Definition xgroup_create (s g : string) : M unit :=
  let* _ := attempt (XgroupCreate s g) in
  fun w =>
    let '(r, st) := Redis.group_create s g (store w) in (r, with_store st w).

(** [xreadgroup(g, c, streams, count=count, block=block)]; the client
    library refuses an empty [streams] before it sends anything, the
    server a stream without the group. *)
Definition xreadgroup (g c : string) (streams : PyDict.t string)
    (count : nat) (block : Z) : M (list (string * list Redis.entry)) :=
  match PyDict.keys streams with
  | [] => fun w =>
      (Raise (DataError "XREADGROUP streams must be a non empty dict"),
       refused (Xreadgroup g c []) w)
  | ss =>
      let* _ := attempt (Xreadgroup g c ss) in
      let* _ := others_append in
      fun w =>
        if forallb (fun s => bool_decide (is_Some (Redis.groups (store w) !! (s, g)))) ss
        then
          match Redis.read_group g ss count (store w) with
          | ([], st) => (Ok [], with_now (now w + block) (with_store st w))
          | (res, st) => (Ok res, with_store st w)
          end
        else (Raise Redis.nogroup, w)
  end.

Definition xack (s g : string) (id : nat) : M unit :=
  let* _ := attempt (Xack s g id) in
  fun w => (Ok tt, with_store (Redis.ack s g id (store w)) w).

End Client.

(** ** The [EventBus] class *)

Section Bus.

Context `{Python}.

(** A handler is a collaborator: it receives the decoded payload, may
    change the Redis server (publish a reply, say), and either returns
    ([None]) or raises an [Exception] ([Some e]).  Handlers that end in
    a [BaseException] (a cancellation) or that call back into the bus
    are not among the handlers described here. *)
Definition handler : Type := Any -> Redis.t -> option exn * Redis.t.

Record EventBus : Type := {
  stream_prefix : string;
  handlers : PyDict.t handler;
  running : bool
}.

(** [EventBus(stream_prefix)] *)
Definition new_bus (prefix : string) : EventBus :=
  {| stream_prefix := prefix; handlers := []; running := false |}.

Definition default_prefix : string := "agent:stream".

Definition _make_stream (self : EventBus) (event_type : string) : string :=
  stream_prefix self +:+ ":" +:+ event_type.

(** [x or y] on an optional string: [None] and the empty string are
    falsy. *)
Definition py_or (x : option string) (y : M string) : M string :=
  match x with
  | Some (String c s) => ret (String c s)
  | _ => y
  end.

(** [str(uuid.uuid4())] *)
Definition new_uuid : M string := fun w =>
  (Ok (uuid4 (drawn w)), with_drawn (S (drawn w)) w).

(** [datetime.now(timezone.utc).isoformat()] *)
Definition utc_now_iso : M string := fun w => (Ok (isoformat (now w)), w).

Definition dumps (d : PyDict.t Any) : M string :=
  match json_dumps d with
  | Some s => ret s
  | None => raise (TypeError "Object is not JSON serializable")
  end.

Definition loads (s : string) : M Any :=
  match json_loads s with
  | Some v => ret v
  | None => raise (JSONDecodeError "Expecting value")
  end.

Definition publish (self : EventBus) (event_type : string)
    (data : PyDict.t Any) (correlation_id : option string) : M string :=
  try_except
    (let* event_id := py_or correlation_id new_uuid in
     let stream_name := _make_stream self event_type in
     let* timestamp := utc_now_iso in
     let* body := dumps data in
     let payload :=
       [("event_id", event_id); ("event_type", event_type);
        ("timestamp", timestamp); ("data", body)] in
     let* message_id := Client.xadd stream_name payload in
     let* _ := logger INFO
       ("Published event " +:+ event_type +:+ " with ID " +:+ event_id) in
     ret event_id)
    (fun e =>
       let* _ := logger ERROR
         ("Failed to publish event " +:+ event_type +:+ ": " +:+ exn_str e) in
       raise e).

(** The two nested [for] loops of [request] return at the first message
    they meet. *)
Fixpoint first_message (messages : list (string * list Redis.entry))
  : option Redis.entry :=
  match messages with
  | [] => None
  | (_, []) :: rest => first_message rest
  | (_, m :: _) :: _ => Some m
  end.

Definition block_ms : Z := 1000.
Definition pause_ms : Z := 100.

(** The [while] loop of [request]: [Some v] when a [return] inside the
    loop fires, [None] when the loop condition fails.  The argument
    [fuel] bounds the number of passes. *)
Fixpoint request_loop (fuel : nat) (response_stream : string)
    (start_time timeout : Z) : M (option Any) :=
  match fuel with
  | O => fun w => (Fuel, w)
  | S fuel' =>
      let* t := loop_time in
      if t - start_time <? timeout * 1000 then
        let* messages := Client.xread response_stream 1 block_ms in
        match first_message messages with
        | Some (msg_id, msg_data) =>
            let* _ := Client.delete response_stream in
            let* v := loads (PyDict.get_default "data" "{}" msg_data) in
            ret (Some v)
        | None =>
            let* _ := sleep pause_ms in
            request_loop fuel' response_stream start_time timeout
        end
      else ret None
  end.

(** Every pass that does not return sleeps [pause_ms], so the loop makes
    at most [timeout * 1000 / pause_ms] passes before its condition
    fails, and one more evaluation of the condition. *)
Definition request_fuel (timeout : Z) : nat := S (Z.to_nat (timeout * 10)).

Definition response_stream_of (self : EventBus) (correlation_id : string)
  : string :=
  stream_prefix self +:+ ":response:" +:+ correlation_id.

(** The body of the [try] block of [request]. *)
Definition request_attempt (self : EventBus) (event_type : string)
    (data : PyDict.t Any) (timeout : Z)
    (correlation_id response_stream : string) : M Any :=
  let* _ := publish self event_type
              (PyDict.set "response_stream" (py_str response_stream) data)
              (Some correlation_id) in
  let* start_time := loop_time in
  let* r := request_loop (request_fuel timeout) response_stream
              start_time timeout in
  match r with
  | Some v => ret v
  | None =>
      let* _ := logger WARNING ("Request timeout for " +:+ event_type) in
      ret py_None
  end.

(** The [try] block of [request] with its [except] clause. *)
Definition request_guarded (self : EventBus) (event_type : string)
    (data : PyDict.t Any) (timeout : Z)
    (correlation_id response_stream : string) : M Any :=
  try_except
    (request_attempt self event_type data timeout correlation_id response_stream)
    (fun e =>
       let* _ := logger ERROR
         ("Request failed for " +:+ event_type +:+ ": " +:+ exn_str e) in
       ret py_None).

Definition request (self : EventBus) (event_type : string)
    (data : PyDict.t Any) (timeout : Z) : M Any :=
  let* correlation_id := new_uuid in
  let response_stream := response_stream_of self correlation_id in
  try_finally
    (request_guarded self event_type data timeout correlation_id response_stream)
    (Client.delete response_stream).

(** [@self.subscribe(event_type)] applied to [handler] *)
Definition subscribe (event_type : string) (h : handler) (self : EventBus)
  : EventBus :=
  {| stream_prefix := stream_prefix self;
     handlers := PyDict.set event_type h (handlers self);
     running := running self |}.

(** A sequence of registrations, oldest first. *)
Definition subscribe_all (subs : list (string * handler)) (self : EventBus)
  : EventBus :=
  fold_left (fun b s => subscribe (fst s) (snd s) b) subs self.

Definition set_running (b : bool) (self : EventBus) : EventBus :=
  {| stream_prefix := stream_prefix self;
     handlers := handlers self;
     running := b |}.

Definition stop_consumer (self : EventBus) : EventBus := set_running false self.

(** [event_type.split(":")\[-1\]]; the client is built with
    [decode_responses=True], so the stream name is a [str] already. *)
Definition event_type_of (stream : string) : string :=
  PyStr.last_item (PyStr.split ":" stream).

Definition call_handler (h : handler) (data : Any) : M unit := fun w =>
  match h data (store w) with
  | (None, st) => (Ok tt, with_store st w)
  | (Some e, st) => (Raise e, with_store st w)
  end.

(** The body of the loop over [msg_list]. *)
Definition dispatch (h : handler) (stream consumer_group event_type : string)
    (msg : Redis.entry) : M unit :=
  try_except
    (let* data := loads (PyDict.get_default "data" "{}" (snd msg)) in
     let* _ := call_handler h data in
     Client.xack stream consumer_group (fst msg))
    (fun e =>
       logger ERROR
         ("Handler error for " +:+ event_type +:+ ": " +:+ exn_str e)).

(** The body of the loop over [messages]. *)
Definition deliver_stream (self : EventBus) (consumer_group : string)
    (item : string * list Redis.entry) : M unit :=
  let stream := fst item in
  let event_type := event_type_of stream in
  match PyDict.get event_type (handlers self) with
  | None => ret tt
  | Some h => for_each (dispatch h stream consumer_group event_type) (snd item)
  end.

(** The stream names the loop reads, as the keys of its [streams] dict. *)
Definition streams_read (self : EventBus) : PyDict.t string :=
  PyDict.comprehension (_make_stream self) (fun _ => ">")
    (PyDict.keys (handlers self)).

(** One pass of [while self.running]. *)
Definition poll_once (self : EventBus) (consumer_group consumer_name : string)
  : M unit :=
  try_except
    (let streams := streams_read self in
     let* messages :=
       Client.xreadgroup consumer_group consumer_name streams 10 block_ms in
     for_each (deliver_stream self consumer_group) messages)
    (fun e =>
       if running self then
         let* _ := logger ERROR ("Consumer error: " +:+ exn_str e) in
         sleep 1000
       else ret tt).

(** The first loop of [start_consumer]: one group per registered type. *)
Definition create_groups (self : EventBus) (consumer_group : string) : M unit :=
  for_each
    (fun event_type =>
       let stream_name := _make_stream self event_type in
       try_except (Client.xgroup_create stream_name consumer_group)
                  (fun _ => ret tt))
    (PyDict.keys (handlers self)).

(** What the first loop of [start_consumer] asks of the client. *)
Definition group_calls (self : EventBus) (consumer_group : string) : list call :=
  map (fun event_type => XgroupCreate (_make_stream self event_type) consumer_group)
      (PyDict.keys (handlers self)).

(** The first [passes] passes of [while self.running], on a bus nobody
    stops meanwhile: the flag is the one [start_consumer] set. *)
Fixpoint consumer_loop (passes : nat) (self : EventBus)
    (consumer_group consumer_name : string) : M unit :=
  match passes with
  | O => ret tt
  | S n =>
      if running self then
        let* _ := poll_once self consumer_group consumer_name in
        consumer_loop n self consumer_group consumer_name
      else ret tt
  end.

(** [start_consumer], followed for [passes] passes of its loop; the bus
    it returns is [self] as the call left it. *)
Definition start_consumer (passes : nat) (self : EventBus)
    (consumer_group consumer_name : string) : M EventBus :=
  let self := set_running true self in
  let* _ := create_groups self consumer_group in
  let* _ := logger INFO
    ("Event consumer started for " +:+ pretty (length (handlers self))
     +:+ " event types") in
  let* _ := consumer_loop passes self consumer_group consumer_name in
  ret self.

(** ** Vocabulary of the statements *)

(** A message's handler completed without raising: its payload decodes
    and the handler, run on the decoded payload, returns. *)
Definition handler_succeeds (h : handler) (msg : Redis.entry) (w : world) : bool :=
  match json_loads (PyDict.get_default "data" "{}" (snd msg)) with
  | Some d => match fst (h d (store w)) with None => true | Some _ => false end
  | None => false
  end.

(** The server as the handler of a message leaves it (unchanged when the
    payload does not decode). *)
Definition after_handler (h : handler) (msg : Redis.entry) (w : world) : Redis.t :=
  match json_loads (PyDict.get_default "data" "{}" (snd msg)) with
  | Some d => snd (h d (store w))
  | None => store w
  end.

(** An acknowledgement, to group [g], of a message on a stream whose
    type has a registered handler. *)
Definition ack_of_registered (self : EventBus) (g : string) (c : call) : Prop :=
  match c with
  | Xack s g' _ => g' = g /\ PyDict.get (event_type_of s) (handlers self) <> None
  | _ => False
  end.

End Bus.

(** ** A small interpreter instance and worlds to run the bus in

    Payload values are optional strings ([None] is Python's [None]); the
    codec writes the number of keys and reads any non-empty text back as
    a string; the n-th uuid is [uuid-n]. *)

Module Sample.

#[local] Instance py : Python := {|
  Any := option string;
  py_None := None;
  py_str := Some;
  json_dumps := fun d => Some ("{" +:+ pretty (length d) +:+ "}");
  json_loads := fun s => match s with EmptyString => None | _ => Some (Some s) end;
  uuid4 := fun n => "uuid-" +:+ pretty n;
  isoformat := fun t => pretty t
|}.

(** A reachable server with nothing in it, at time 0. *)
Definition quiet : world :=
  {| store := Redis.empty; now := 0; drawn := 0%nat; faults := [];
     arrivals := []; calls := []; log := [] |}.

(** The same, with a connection that fails on the first client call. *)
Definition broken : world :=
  {| store := Redis.empty; now := 0; drawn := 0%nat;
     faults := [(0, Some (ConnectionError "Connection refused"))];
     arrivals := []; calls := []; log := [] |}.

(** A responder that answers the first request while its second read
    waits. *)
Definition answered : world :=
  {| store := Redis.empty; now := 0; drawn := 0%nat; faults := [];
     arrivals := [[]; [("agent:stream:response:uuid-0", [("data", "pong")])]];
     calls := []; log := [] |}.

(** Three messages waiting on the stream of type [t]: one whose payload
    does not decode, one without a payload, one with a payload. *)
Definition backlog : world :=
  {| store := Redis.append "agent:stream:t" [("data", "x")]
                (Redis.append "agent:stream:t" [("other", "x")]
                   (Redis.append "agent:stream:t" [("data", EmptyString)]
                      Redis.empty));
     now := 0; drawn := 0%nat; faults := []; arrivals := [];
     calls := []; log := [] |}.

Definition bus0 : EventBus := new_bus default_prefix.

(** Two handlers that leave a mark in the server: each appends to a
    stream of its own. *)
Definition mark (name : string) : handler :=
  fun _ r => (None, Redis.append name [] r).

Definition failing : handler :=
  fun _ r => (Some (HandlerError "boom"), r).

End Sample.

(** ** Further vocabulary and sample worlds *)

(** An interpreter whose codec refuses dictionaries holding [None]. *)
Module Strict.

#[local] Instance py : Python := {|
  Any := option string;
  py_None := None;
  py_str := Some;
  json_dumps := fun d =>
    if forallb (fun kv => match snd kv with Some _ => true | None => false end) d
    then Some ("{" +:+ pretty (length d) +:+ "}")
    else None;
  json_loads := fun s => match s with EmptyString => None | _ => Some (Some s) end;
  uuid4 := fun n => "uuid-" +:+ pretty n;
  isoformat := fun t => pretty t
|}.

End Strict.

(** Worlds for the request path. *)
Module Replies.

(** A responder whose reply has an empty payload text, written during
    the first read. *)
Definition garbled : world :=
  {| store := Redis.empty; now := 0; drawn := 0%nat; faults := [];
     arrivals := [[("agent:stream:response:uuid-0", [("data", EmptyString)])]];
     calls := []; log := [] |}.


(** A connection that is down for the next two client calls. *)
Definition down_twice : world :=
  {| store := Redis.empty; now := 0; drawn := 0%nat;
     faults := repeat (0, Some (ConnectionError "Connection refused")) 2;
     arrivals := []; calls := []; log := [] |}.

(** A reply written during the first read, on a connection that carries
    the publish and the read and fails the two deletes that follow. *)
Definition kept : world :=
  {| store := Redis.empty; now := 0; drawn := 0%nat;
     faults := [(0, None); (0, None);
                (0, Some (ConnectionError "Connection reset"));
                (0, Some (ConnectionError "Connection reset"))];
     arrivals := [[("agent:stream:response:uuid-0", [("data", "pong")])]];
     calls := []; log := [] |}.

End Replies.

Section MoreVocabulary.
Context `{Python}.

(** The acknowledgements a batch of delivered messages can give rise
    to: one per message, in delivery order. *)
Definition acks_due (g : string) (messages : list (string * list Redis.entry))
  : list call :=
  flat_map (fun item => map (fun msg => Xack (fst item) g (fst msg)) (snd item))
           messages.

End MoreVocabulary.

(** Every stream but [rs] keeps the entries it had, in place, with
    possibly more after them. *)
Definition keeps_streams_except (rs : string) (r r' : Redis.t) : Prop :=
  forall s l, s <> rs -> Redis.streams r !! s = Some l ->
    exists l', Redis.streams r' !! s = Some (l ++ l').

(** ** Connections that answer late *)

(** Every await still scripted overshoots its nominal duration by
    [delta] milliseconds at most. *)
Definition prompt (delta : Z) (w : world) : Prop :=
  Forall (fun f : Z * option exn => fst f <= delta) (faults w).



(** ** The shared Redis client of [core/redis_client.py] *)

Module RedisClient.

(** The settings the class reads. *)
Record settings : Type := {
  redis_host : string;
  redis_port : Z;
  redis_db : Z
}.

(** A client object: the arguments it was built with, and whether it
    was closed since. *)
Record client : Type := {
  asynchronous : bool;
  host : string;
  port : Z;
  db : Z;
  decode_responses : bool;
  socket_connect_timeout : Z;
  socket_keepalive : bool;
  health_check_interval : Z;
  closed : bool
}.

(** The class: its two attributes, as references into the objects
    created so far, and the log. *)
Record t : Type := {
  _sync_instance : option nat;
  _async_instance : option nat;
  objects : list client;
  log : list (level * string)
}.

Definition initial : t :=
  {| _sync_instance := None; _async_instance := None; objects := []; log := [] |}.

(** [Redis(...)] and [AsyncRedis(...)] with the arguments of the class *)
Definition connect (cfg : settings) (is_async : bool) : client :=
  {| asynchronous := is_async;
     host := redis_host cfg; port := redis_port cfg; db := redis_db cfg;
     decode_responses := true;
     socket_connect_timeout := 5;
     socket_keepalive := true;
     health_check_interval := 30;
     closed := false |}.

Definition get_sync_client (cfg : settings) (st : t) : nat * t :=
  match _sync_instance st with
  | Some r => (r, st)
  | None =>
      let r := length (objects st) in
      (r, {| _sync_instance := Some r;
             _async_instance := _async_instance st;
             objects := objects st ++ [connect cfg false];
             log := log st ++ [(INFO, "Redis sync client initialized")] |})
  end.

Definition get_async_client (cfg : settings) (st : t) : nat * t :=
  match _async_instance st with
  | Some r => (r, st)
  | None =>
      let r := length (objects st) in
      (r, {| _sync_instance := _sync_instance st;
             _async_instance := Some r;
             objects := objects st ++ [connect cfg true];
             log := log st ++ [(INFO, "Redis async client initialized")] |})
  end.

(** [aclose()] or [close()] on a client object *)
Definition shut (c : client) : client :=
  {| asynchronous := asynchronous c;
     host := host c; port := port c; db := db c;
     decode_responses := decode_responses c;
     socket_connect_timeout := socket_connect_timeout c;
     socket_keepalive := socket_keepalive c;
     health_check_interval := health_check_interval c;
     closed := true |}.

Definition shut_at (r : option nat) (objs : list client) : list client :=
  match r with
  | Some i => alter shut i objs
  | None => objs
  end.

Definition close (st : t) : t :=
  {| _sync_instance := _sync_instance st;
     _async_instance := _async_instance st;
     objects := shut_at (_sync_instance st) (shut_at (_async_instance st) (objects st));
     log := log st |}.

(** The calls a program can make on the class, and a run of them. *)
Inductive op : Type := GetSync | GetAsync | Close.

Definition step (cfg : settings) (st : t) (o : op) : t :=
  match o with
  | GetSync => snd (get_sync_client cfg st)
  | GetAsync => snd (get_async_client cfg st)
  | Close => close st
  end.

Definition run (cfg : settings) (ops : list op) (st : t) : t :=
  fold_left (step cfg) ops st.

(** An attribute that is set refers to an object of its kind. *)
Definition refers (is_async : bool) (r : option nat) (objs : list client) : Prop :=
  match r with
  | Some i => exists c, objs !! i = Some c /\ asynchronous c = is_async
  | None => True
  end.

Definition count_set (r : option nat) : nat :=
  match r with Some _ => 1 | None => 0 end.

Definition well_formed (st : t) : Prop :=
  refers false (_sync_instance st) (objects st)
  /\ refers true (_async_instance st) (objects st)
  /\ length (objects st) = (count_set (_sync_instance st) + count_set (_async_instance st))%nat
  /\ length (log st) = length (objects st)
  /\ Forall (fun c => decode_responses c = true) (objects st).

Definition localhost : settings :=
  {| redis_host := "localhost"; redis_port := 6379; redis_db := 0 |}.

End RedisClient.

(** * Properties *)

(** ** Strings and dictionaries *)

Module PyStrFacts.
Import PyStr.

Lemma split_not_nil sep s : split sep s <> [].
Proof.
  destruct s as [|c rest]; simpl; [discriminate|].
  destruct (Ascii.eqb c sep); [discriminate|].
  destruct (split sep rest); discriminate.
Qed.

(** Splitting at a separator that stands between [a] and [b] splits
    [a] and [b] apart. *)
Lemma split_app sep a b :
  split sep (a +:+ String sep b) = split sep a ++ split sep b.
Proof.
  induction a as [|c a IH]; simpl.
  - now rewrite Ascii.eqb_refl.
  - destruct (Ascii.eqb c sep); [now rewrite IH|].
    rewrite IH. pose proof (split_not_nil sep a) as Hne.
    destruct (split sep a); [contradiction|reflexivity].
Qed.

Lemma split_without sep s : contains sep s = false -> split sep s = [s].
Proof.
  induction s as [|c s IH]; simpl; [reflexivity|].
  intros Hc. apply orb_false_iff in Hc as [Hc Hs].
  rewrite Hc, (IH Hs). reflexivity.
Qed.

(** No segment holds the separator. *)
Lemma split_segments sep s :
  Forall (fun seg => contains sep seg = false) (split sep s).
Proof.
  induction s as [|c s IH]; simpl.
  - constructor; [reflexivity|constructor].
  - destruct (Ascii.eqb c sep) eqn:E.
    + constructor; [reflexivity|exact IH].
    + destruct (split sep s) as [|seg segs].
      * constructor; [simpl; now rewrite E|constructor].
      * inversion IH as [|? ? Hseg Hsegs]; subst.
        constructor; [simpl; now rewrite E, Hseg|exact Hsegs].
Qed.

Lemma last_app_r (l1 l2 : list string) d :
  l2 <> [] -> List.last (l1 ++ l2) d = List.last l2 d.
Proof.
  intros Hne. induction l1 as [|x l1 IH]; [reflexivity|].
  simpl. destruct (l1 ++ l2) eqn:E; [|exact IH].
  apply app_eq_nil in E as [_ E]. contradiction.
Qed.

Lemma last_item_split_app sep a b :
  last_item (split sep (a +:+ String sep b)) = last_item (split sep b).
Proof.
  unfold last_item. rewrite split_app.
  apply last_app_r, split_not_nil.
Qed.

Lemma last_item_without sep s :
  contains sep s = false -> last_item (split sep s) = s.
Proof. intros Hs. now rewrite (split_without _ _ Hs). Qed.

Lemma last_item_clean sep s : contains sep (last_item (split sep s)) = false.
Proof.
  unfold last_item. pose proof (split_segments sep s) as Hall.
  pose proof (split_not_nil sep s) as Hne.
  induction (split sep s) as [|x l IH]; [contradiction|].
  inversion Hall as [|? ? Hx Hl]; subst.
  destruct l as [|y l']; [exact Hx|].
  change (contains sep (List.last (y :: l') EmptyString) = false).
  apply IH; [exact Hl|discriminate].
Qed.

End PyStrFacts.

Module PyDictFacts.
Import PyDict.

Section Facts.
Context {V : Type}.
Implicit Types (d : t V) (k : string) (v : V).

Lemma get_set_eq k v d : get k (set k v d) = Some v.
Proof.
  induction d as [|[k' v'] d IH]; simpl.
  - now rewrite String.eqb_refl.
  - destruct (String.eqb k' k) eqn:E; simpl.
    + now rewrite String.eqb_refl.
    + now rewrite E.
Qed.

Lemma get_set_ne k k' v d : k <> k' -> get k' (set k v d) = get k' d.
Proof.
  intros Hne. induction d as [|[k0 v0] d IH]; simpl.
  - apply String.eqb_neq in Hne. now rewrite Hne.
  - destruct (String.eqb k0 k) eqn:E; simpl.
    + apply String.eqb_eq in E. subst k0.
      apply String.eqb_neq in Hne. now rewrite Hne.
    + now rewrite IH.
Qed.

Lemma keys_set_old k k' v d : In k' (keys d) -> In k' (keys (set k v d)).
Proof.
  induction d as [|[k0 v0] d IH]; simpl; [tauto|].
  intros [<-|Hin]; destruct (String.eqb k0 k) eqn:E; simpl; auto.
  apply String.eqb_eq in E. now left.
Qed.

Lemma keys_set_new k v d : In k (keys (set k v d)).
Proof.
  induction d as [|[k0 v0] d IH]; simpl; [now left|].
  destruct (String.eqb k0 k); simpl; auto.
Qed.

Lemma keys_set_inv k k' v d :
  In k' (keys (set k v d)) -> k' = k \/ In k' (keys d).
Proof.
  induction d as [|[k0 v0] d IH]; simpl.
  - intros [<-|[]]. now left.
  - destruct (String.eqb k0 k) eqn:E; simpl.
    + intros [<-|Hin]; auto.
    + intros [<-|Hin]; auto. destruct (IH Hin); auto.
Qed.

(** Assignment keeps the keys of a dictionary distinct. *)
Lemma keys_set_NoDup k v d : NoDup (keys d) -> NoDup (keys (set k v d)).
Proof.
  induction d as [|[k0 v0] d IH]; simpl; intros Hnd.
  - constructor; [intros Hin; inversion Hin|constructor].
  - apply NoDup_cons in Hnd as [Hk0 Hnd].
    destruct (String.eqb k0 k) eqn:E; simpl.
    + apply String.eqb_eq in E. subst k0. now apply NoDup_cons.
    + apply NoDup_cons. split; [|now apply IH].
      intros Hin. apply list_elem_of_In, keys_set_inv in Hin as [->|Hin].
      * now rewrite String.eqb_refl in E.
      * apply Hk0, list_elem_of_In, Hin.
Qed.

Lemma entries_for_absent k d : ~ In k (keys d) -> entries_for k d = [].
Proof.
  induction d as [|[k0 v0] d IH]; simpl; [reflexivity|].
  intros Hni. destruct (String.eqb k0 k) eqn:E.
  - apply String.eqb_eq in E. tauto.
  - apply IH. tauto.
Qed.

(** After an assignment to [k] of a dictionary with distinct keys, [k]
    holds the assigned value and nothing else. *)
Lemma entries_for_set k v d :
  NoDup (keys d) -> entries_for k (set k v d) = [(k, v)].
Proof.
  induction d as [|[k0 v0] d IH]; simpl; intros Hnd.
  - now rewrite String.eqb_refl.
  - apply NoDup_cons in Hnd as [Hk0 Hnd].
    destruct (String.eqb k0 k) eqn:E; simpl.
    + apply String.eqb_eq in E. subst k0. rewrite String.eqb_refl.
      f_equal. apply entries_for_absent.
      intros Hin. apply Hk0, list_elem_of_In, Hin.
    + rewrite E. now apply IH.
Qed.

Lemma keys_comprehension_acc {A} (key : A -> string) (val : A -> V) xs d k :
  In k (keys d) \/ In k (map key xs) ->
  In k (keys (fold_left (fun d x => set (key x) (val x) d) xs d)).
Proof.
  revert d. induction xs as [|x xs IH]; simpl; intros d.
  - tauto.
  - intros [Hin|[<-|Hin]]; apply IH.
    + left. now apply keys_set_old.
    + left. apply keys_set_new.
    + now right.
Qed.

Lemma keys_comprehension {A} (key : A -> string) (val : A -> V) xs x :
  In x xs -> In (key x) (keys (comprehension key val xs)).
Proof.
  intros Hin. apply keys_comprehension_acc. right. now apply in_map.
Qed.

End Facts.
End PyDictFacts.

(** ** The handler registry *)

Section RegistryFacts.
Context `{Python}.

Lemma subscribe_all_NoDup subs self :
  NoDup (PyDict.keys (handlers self)) ->
  NoDup (PyDict.keys (handlers (subscribe_all subs self))).
Proof.
  revert self. induction subs as [|[k h] subs IH]; intros self Hnd; [exact Hnd|].
  apply IH. simpl. now apply PyDictFacts.keys_set_NoDup.
Qed.

Lemma registry_NoDup prefix subs :
  NoDup (PyDict.keys (handlers (subscribe_all subs (new_bus prefix)))).
Proof. apply subscribe_all_NoDup. simpl. constructor. Qed.

(** C8. On a bus built by any sequence of registrations, registering [h1]
    and then [h2] for the same event type leaves [h2] as the handler the
    lookup finds and as the only entry stored for that type, and the keys
    of the registry stay pairwise distinct: one handler per event type at
    most. *)
Theorem subscribe_last_wins prefix subs t (h1 h2 : handler) :
  let self := subscribe t h2 (subscribe t h1 (subscribe_all subs (new_bus prefix))) in
  PyDict.get t (handlers self) = Some h2
  /\ PyDict.entries_for t (handlers self) = [(t, h2)]
  /\ NoDup (PyDict.keys (handlers self)).
Proof.
  pose proof (registry_NoDup prefix subs) as Hnd.
  set (bus := subscribe_all subs (new_bus prefix)) in *.
  assert (Hnd1 : NoDup (PyDict.keys (handlers (subscribe t h1 bus))))
    by now apply PyDictFacts.keys_set_NoDup.
  simpl. repeat split.
  - apply PyDictFacts.get_set_eq.
  - now apply PyDictFacts.entries_for_set.
  - now apply PyDictFacts.keys_set_NoDup.
Qed.

End RegistryFacts.

(** ** Publishing *)

Section PublishFacts.
Context `{Python}.

Lemma attempt_ok c w :
  fails_next w = None -> Client.attempt c w = (Ok tt, attempted c w).
Proof. intros Hf. unfold Client.attempt. now rewrite Hf. Qed.

Lemma attempt_raise c e w :
  fails_next w = Some e -> Client.attempt c w = (Raise e, attempted c w).
Proof. intros Hf. unfold Client.attempt. now rewrite Hf. Qed.

(** The envelope [publish] writes. *)
Lemma publish_ok self event_type data correlation_id body w :
  json_dumps data = Some body ->
  fails_next w = None ->
  let event_id :=
    match correlation_id with
    | Some (String c s) => String c s
    | _ => uuid4 (drawn w)
    end in
  let stream := stream_prefix self +:+ ":" +:+ event_type in
  let payload :=
    [("event_id", event_id); ("event_type", event_type);
     ("timestamp", isoformat (now w)); ("data", body)] in
  publish self event_type data correlation_id w =
    (Ok event_id,
     with_log (log w ++ [(INFO, "Published event " +:+ event_type +:+ " with ID " +:+ event_id)])
       (with_store (Redis.append stream payload (store w))
          (attempted (Xadd stream payload)
             (with_drawn (match correlation_id with
                          | Some (String _ _) => drawn w
                          | _ => S (drawn w)
                          end) w)))).
Proof.
  intros Hbody Hup. unfold publish, try_except, bind, dumps, Client.xadd, bind.
  destruct correlation_id as [[|c s]|]; simpl;
    rewrite Hbody; simpl; unfold Client.attempt, fails_next in *; simpl;
    destruct (faults w) as [|[d [e|]] fs]; try discriminate; simpl;
    try reflexivity; destruct w; reflexivity.
Qed.

Lemma publish_down self event_type data correlation_id body e w :
  json_dumps data = Some body ->
  fails_next w = Some e ->
  let event_id :=
    match correlation_id with
    | Some (String c s) => String c s
    | _ => uuid4 (drawn w)
    end in
  let stream := stream_prefix self +:+ ":" +:+ event_type in
  let payload :=
    [("event_id", event_id); ("event_type", event_type);
     ("timestamp", isoformat (now w)); ("data", body)] in
  publish self event_type data correlation_id w =
    (Raise e,
     with_log (log w ++ [(ERROR, "Failed to publish event " +:+ event_type +:+ ": " +:+ exn_str e)])
       (attempted (Xadd stream payload)
          (with_drawn (match correlation_id with
                       | Some (String _ _) => drawn w
                       | _ => S (drawn w)
                       end) w))).
Proof.
  intros Hbody Hdown. unfold publish, try_except, bind, dumps, Client.xadd, bind.
  destruct correlation_id as [[|c s]|]; simpl;
    rewrite Hbody; simpl; unfold Client.attempt, fails_next in *; simpl;
    destruct (faults w) as [|[d [e'|]] fs]; try discriminate; simpl;
    injection Hdown as ->; try reflexivity; destruct w; reflexivity.
Qed.

Lemma faults_up w : faults w = [] -> fails_next w = None.
Proof. intros Hf. unfold fails_next. now rewrite Hf. Qed.

(** On a script that has run out, a call sent takes no time. *)
Lemma attempted_up c w : faults w = [] -> attempted c w = refused c w.
Proof.
  intros Hf. unfold attempted, refused, lag_next. rewrite Hf. simpl.
  f_equal. lia.
Qed.

(** And a sleep lasts what it was asked to. *)
Lemma slept_up ms w : faults w = [] -> slept ms w = with_now (now w + ms) w.
Proof.
  intros Hf. unfold slept, with_now, lag_next. rewrite Hf. simpl.
  f_equal. lia.
Qed.

Lemma attempt_up c w : faults w = [] -> Client.attempt c w = (Ok tt, refused c w).
Proof.
  intros Hf. rewrite (attempt_ok _ _ (faults_up _ Hf)).
  now rewrite attempted_up.
Qed.

Lemma publish_ok_up self event_type data correlation_id body w :
  json_dumps data = Some body ->
  faults w = [] ->
  let event_id :=
    match correlation_id with
    | Some (String c s) => String c s
    | _ => uuid4 (drawn w)
    end in
  let stream := stream_prefix self +:+ ":" +:+ event_type in
  let payload :=
    [("event_id", event_id); ("event_type", event_type);
     ("timestamp", isoformat (now w)); ("data", body)] in
  publish self event_type data correlation_id w =
    (Ok event_id,
     with_log (log w ++ [(INFO, "Published event " +:+ event_type +:+ " with ID " +:+ event_id)])
       (with_store (Redis.append stream payload (store w))
          (refused (Xadd stream payload)
             (with_drawn (match correlation_id with
                          | Some (String _ _) => drawn w
                          | _ => S (drawn w)
                          end) w)))).
Proof.
  intros Hbody Hup. cbv zeta.
  rewrite (publish_ok _ _ _ _ _ _ Hbody (faults_up _ Hup)). cbv zeta.
  rewrite attempted_up by exact Hup. reflexivity.
Qed.

(** C4, as the code has it. When the payload serialises to [body] and the
    connection is up, [publish] returns the event id it used: the supplied
    [correlation_id] when that is a non-empty string, and the next draw of
    the uuid generator otherwise (no id supplied, or the empty string),
    the generator moving on so that the draw is not reused.  The envelope
    carries that id, the event type, the timestamp and the serialised
    payload, and is appended to the stream [{prefix}:{event_type}]. *)
Theorem publish_returns_event_id self event_type data correlation_id body w :
  json_dumps data = Some body ->
  fails_next w = None ->
  let event_id :=
    match correlation_id with
    | Some (String c s) => String c s
    | _ => uuid4 (drawn w)
    end in
  let stream := _make_stream self event_type in
  let payload :=
    [("event_id", event_id); ("event_type", event_type);
     ("timestamp", isoformat (now w)); ("data", body)] in
  let w' := snd (publish self event_type data correlation_id w) in
  fst (publish self event_type data correlation_id w) = Ok event_id
  /\ stream = stream_prefix self +:+ ":" +:+ event_type
  /\ Redis.streams (store w') !! stream =
       Some (default [] (Redis.streams (store w) !! stream)
             ++ [(Redis.next_id (store w), payload)])
  /\ calls w' = calls w ++ [Xadd stream payload]
  /\ drawn w' = match correlation_id with
                | Some (String _ _) => drawn w
                | _ => S (drawn w)
                end.
Proof.
  intros Hbody Hup. cbv zeta.
  rewrite (publish_ok _ _ _ _ _ _ Hbody Hup). simpl.
  repeat split; try reflexivity.
  unfold _make_stream. apply lookup_insert_eq.
Qed.

(** C9. When the payload serialises and the append fails with [e],
    [publish] raises that same [e] to its caller after exactly one append
    attempt: the call record grows by that single [Xadd], the server is
    left as it was, and the failure is logged once. *)
Theorem publish_failure_propagates self event_type data correlation_id body e w :
  json_dumps data = Some body ->
  fails_next w = Some e ->
  let w' := snd (publish self event_type data correlation_id w) in
  fst (publish self event_type data correlation_id w) = Raise e
  /\ (exists payload,
        calls w' = calls w ++ [Xadd (_make_stream self event_type) payload])
  /\ store w' = store w
  /\ log w' = log w ++ [(ERROR, "Failed to publish event " +:+ event_type
                                 +:+ ": " +:+ exn_str e)].
Proof.
  intros Hbody Hdown. cbv zeta.
  rewrite (publish_down _ _ _ _ _ _ _ Hbody Hdown). simpl.
  repeat split; try reflexivity.
  eexists. reflexivity.
Qed.

End PublishFacts.

Lemma publish_returns_event_id_witness :
  fst (publish (H := Sample.py) Sample.bus0 "order.created" [] (Some "c-1") Sample.quiet)
  = Ok "c-1".
Proof.
  refine (proj1 (publish_returns_event_id (H := Sample.py) Sample.bus0
                   "order.created" [] (Some "c-1") "{0}" Sample.quiet _ _));
    vm_compute; reflexivity.
Defined.

(** An empty correlation id is supplied, and is not the event id. *)
Lemma publish_empty_correlation_id :
  fst (publish (H := Sample.py) Sample.bus0 "order.created" [] (Some "") Sample.quiet)
  <> Ok "".
Proof. vm_compute. discriminate. Qed.

Lemma publish_failure_propagates_witness :
  fst (publish (H := Sample.py) Sample.bus0 "order.created" [] None Sample.broken)
  = Raise (ConnectionError "Connection refused").
Proof.
  refine (proj1 (publish_failure_propagates (H := Sample.py) Sample.bus0
                   "order.created" [] None "{0}"
                   (ConnectionError "Connection refused") Sample.broken _ _));
    vm_compute; reflexivity.
Defined.

(** ** The consumer loop *)

Section ConsumerFacts.
Context `{Python}.

(** What [dispatch] does, by the three ways a message can go. *)
Lemma dispatch_run h stream g event_type msg w :
  dispatch h stream g event_type msg w =
    match json_loads (PyDict.get_default "data" "{}" (snd msg)) with
    | None =>
        (Ok tt,
         with_log (log w ++ [(ERROR, "Handler error for " +:+ event_type +:+ ": "
                                      +:+ "Expecting value")]) w)
    | Some d =>
        match h d (store w) with
        | (Some e, st) =>
            (Ok tt,
             with_log (log w ++ [(ERROR, "Handler error for " +:+ event_type
                                          +:+ ": " +:+ exn_str e)])
               (with_store st w))
        | (None, st) =>
            match fails_next w with
            | Some e =>
                (Ok tt,
                 with_log (log w ++ [(ERROR, "Handler error for " +:+ event_type
                                              +:+ ": " +:+ exn_str e)])
                   (attempted (Xack stream g (fst msg)) (with_store st w)))
            | None =>
                (Ok tt,
                 with_store (Redis.ack stream g (fst msg) st)
                   (attempted (Xack stream g (fst msg)) (with_store st w)))
            end
        end
    end.
Proof.
  unfold dispatch, try_except, bind, loads, call_handler, Client.xack, bind,
    Client.attempt.
  destruct (json_loads _) as [d|]; [|reflexivity]. simpl.
  destruct (h d (store w)) as [[e|] st]; [reflexivity|].
  change (fails_next (with_store st w)) with (fails_next w).
  destruct (fails_next w); reflexivity.
Qed.

Lemma dispatch_returns h stream g event_type msg w :
  fst (dispatch h stream g event_type msg w) = Ok tt.
Proof.
  rewrite dispatch_run.
  destruct (json_loads _) as [d|]; [|reflexivity].
  destruct (h d (store w)) as [[e|] st]; [reflexivity|].
  destruct (fails_next w); reflexivity.
Qed.

Lemma dispatch_calls h stream g event_type msg w :
  calls (snd (dispatch h stream g event_type msg w)) =
  calls w ++ (if handler_succeeds h msg w then [Xack stream g (fst msg)] else []).
Proof.
  rewrite dispatch_run. unfold handler_succeeds.
  destruct (json_loads _) as [d|]; [|simpl; now rewrite app_nil_r].
  destruct (h d (store w)) as [[e|] st]; simpl; [now rewrite app_nil_r|].
  destruct (fails_next w); reflexivity.
Qed.

Lemma ack_not_pending stream g id r :
  id ∉ Redis.pending_of stream g (Redis.ack stream g id r).
Proof.
  unfold Redis.pending_of, Redis.ack. simpl. rewrite lookup_alter_eq.
  destruct (Redis.groups r !! (stream, g)) as [gr|]; simpl.
  - intros Hin. apply elem_of_difference in Hin as [_ Hn].
    apply Hn, elem_of_singleton. reflexivity.
  - apply not_elem_of_empty.
Qed.

(** C3. A dispatched message is acknowledged if and only if its handler
    completed without raising.  The client calls [dispatch] makes are the
    single [Xack] of the message when the payload decoded and the handler
    returned, and none otherwise.  Without an acknowledgement the server
    is as the handler left it, so the message keeps its place in the
    pending set; an acknowledgement that reaches the server takes the
    message out of the pending set.  [dispatch] itself always returns, so
    the loop over the batch goes on with the next message. *)
Theorem ack_iff_handler_succeeds h stream g event_type msg msgs w :
  let w' := snd (dispatch h stream g event_type msg w) in
  (In (Xack stream g (fst msg)) (drop (length (calls w)) (calls w'))
     <-> handler_succeeds h msg w = true)
  /\ calls w' =
       calls w ++ (if handler_succeeds h msg w then [Xack stream g (fst msg)] else [])
  /\ store w' =
       (if handler_succeeds h msg w && bool_decide (fails_next w = None)
        then Redis.ack stream g (fst msg) (after_handler h msg w)
        else after_handler h msg w)
  /\ (fst msg ∉ Redis.pending_of stream g
                  (Redis.ack stream g (fst msg) (after_handler h msg w)))
  /\ for_each (dispatch h stream g event_type) (msg :: msgs) w =
       for_each (dispatch h stream g event_type) msgs w'.
Proof.
  cbv zeta. repeat split.
  - rewrite dispatch_calls, drop_app_length.
    destruct (handler_succeeds h msg w); [reflexivity|intros []].
  - intros Hok. rewrite dispatch_calls, drop_app_length, Hok. now left.
  - apply dispatch_calls.
  - rewrite dispatch_run. unfold handler_succeeds, after_handler.
    destruct (json_loads _) as [d|]; [|reflexivity].
    destruct (h d (store w)) as [[e|] st]; simpl; [reflexivity|].
    destruct (fails_next w); reflexivity.
  - apply ack_not_pending.
  - simpl. unfold bind at 1.
    pose proof (dispatch_returns h stream g event_type msg w) as Hret.
    destruct (dispatch h stream g event_type msg w) as [r w1].
    simpl in Hret. subst r. reflexivity.
Qed.

(** The calls recorded only grow. *)
Lemma extends_refl w : extends w w.
Proof. exists []. now rewrite app_nil_r. Qed.

Lemma extends_trans w1 w2 w3 : extends w1 w2 -> extends w2 w3 -> extends w1 w3.
Proof.
  intros [l1 H1] [l2 H2]. exists (l1 ++ l2).
  now rewrite H2, H1, <- app_assoc.
Qed.

Lemma extends_by_refl P w : extends_by P w w.
Proof. exists []. split; [now rewrite app_nil_r|constructor]. Qed.

Lemma extends_by_trans P w1 w2 w3 :
  extends_by P w1 w2 -> extends_by P w2 w3 -> extends_by P w1 w3.
Proof.
  intros (l1 & H1 & HP1) (l2 & H2 & HP2). exists (l1 ++ l2). split.
  - now rewrite H2, H1, <- app_assoc.
  - apply Forall_app; auto.
Qed.

Lemma for_each_extends_by {A} P (f : A -> M unit) :
  (forall x w, extends_by P w (snd (f x w))) ->
  forall xs w, extends_by P w (snd (for_each f xs w)).
Proof.
  intros Hf xs. induction xs as [|x xs IH]; intros w; [apply extends_by_refl|].
  simpl. unfold bind. pose proof (Hf x w) as Hx.
  destruct (f x w) as [[[]|e|] w1]; simpl in *; auto.
  eapply extends_by_trans; eauto.
Qed.

Lemma dispatch_extends_by (P : call -> Prop) h stream g event_type msg w :
  P (Xack stream g (fst msg)) ->
  extends_by P w (snd (dispatch h stream g event_type msg w)).
Proof.
  intros HP. eexists. split; [apply dispatch_calls|].
  destruct (handler_succeeds h msg w); repeat constructor. exact HP.
Qed.

(** The only calls a batch gives rise to are acknowledgements on streams
    whose type has a handler. *)
Lemma deliver_stream_extends_by self g item w :
  extends_by (ack_of_registered self g) w (snd (deliver_stream self g item w)).
Proof.
  unfold deliver_stream.
  destruct (PyDict.get _ _) as [h|] eqn:Hget; [|apply extends_by_refl].
  apply for_each_extends_by. intros msg w'. apply dispatch_extends_by.
  simpl. split; [reflexivity|]. now rewrite Hget.
Qed.

Lemma for_each_returns {A} (f : A -> M unit) :
  (forall x w, fst (f x w) = Ok tt) ->
  forall xs w, fst (for_each f xs w) = Ok tt.
Proof.
  intros Hf xs. induction xs as [|x xs IH]; intros w; [reflexivity|].
  simpl. unfold bind. pose proof (Hf x w) as Hx.
  destruct (f x w) as [r w1]. simpl in Hx. subst r. apply IH.
Qed.

Lemma deliver_stream_returns self g item w :
  fst (deliver_stream self g item w) = Ok tt.
Proof.
  unfold deliver_stream. destruct (PyDict.get _ _); [|reflexivity].
  apply for_each_returns. intros. apply dispatch_returns.
Qed.

Lemma others_append_frame w :
  let r := Client.others_append w in
  fst r = Ok tt /\ log (snd r) = log w /\ calls (snd r) = calls w
  /\ now (snd r) = now w /\ faults (snd r) = faults w.
Proof. unfold Client.others_append. destruct (arrivals w); simpl; auto. Qed.

(** The group read is recorded once, sent or refused, and it ends. *)
Lemma xreadgroup_calls g c streams count block w :
  let r := Client.xreadgroup g c streams count block w in
  calls (snd r) = calls w ++ [Xreadgroup g c (PyDict.keys streams)]
  /\ fst r <> Fuel.
Proof.
  cbv zeta. unfold Client.xreadgroup.
  destruct (PyDict.keys streams) as [|s ss]; [split; [reflexivity|discriminate]|].
  unfold bind, Client.attempt.
  destruct (fails_next w); [split; [reflexivity|discriminate]|].
  pose proof (others_append_frame (attempted (Xreadgroup g c (s :: ss)) w))
    as (Hr & _ & Hc & _).
  destruct (Client.others_append _) as [r w1]. simpl in Hr, Hc. subst r.
  destruct (forallb _ _); [|split; [exact Hc|discriminate]].
  destruct (Redis.read_group _ _ _ _) as [[|] st]; cbn [fst snd];
    (split; [exact Hc|discriminate]).
Qed.

Lemma xreadgroup_ends g c streams count block w :
  fst (Client.xreadgroup g c streams count block w) <> Fuel.
Proof. apply xreadgroup_calls. Qed.

Lemma poll_once_run self g c w :
  poll_once self g c w =
    match Client.xreadgroup g c (streams_read self) 10 block_ms w with
    | (Ok messages, w1) => for_each (deliver_stream self g) messages w1
    | (Raise e, w1) =>
        (if running self then
           let* _ := logger ERROR ("Consumer error: " +:+ exn_str e) in
           sleep 1000
         else ret tt) w1
    | (Fuel, w1) => (Fuel, w1)
    end.
Proof.
  unfold poll_once, try_except, bind at 1.
  destruct (Client.xreadgroup _ _ _ _ _ w) as [[messages|e|] w1]; try reflexivity.
  pose proof (for_each_returns (deliver_stream self g)
                (deliver_stream_returns self g) messages w1) as Hr.
  destruct (for_each _ messages w1) as [r w2]. simpl in Hr. now subst r.
Qed.

(** Every pass asks for the streams of all registered types, and
    acknowledges nothing but messages of types with a handler. *)
Lemma poll_once_reads self g c w :
  exists rest,
    calls (snd (poll_once self g c w)) =
    calls w ++ Xreadgroup g c (PyDict.keys (streams_read self)) :: rest
    /\ Forall (ack_of_registered self g) rest.
Proof.
  rewrite poll_once_run.
  pose proof (xreadgroup_calls g c (streams_read self) 10 block_ms w) as [Hc Hends].
  cbv zeta in Hc, Hends.
  destruct (Client.xreadgroup _ _ _ _ _ w) as [[messages|e|] w1]; cbn [fst snd] in *.
  - destruct (for_each_extends_by (ack_of_registered self g) (deliver_stream self g)
                (deliver_stream_extends_by self g) messages w1) as (l & Hl & HP).
    exists l. split; [|exact HP]. rewrite Hl, Hc, <- app_assoc. reflexivity.
  - exists []. split; [|constructor]. destruct (running self); simpl; exact Hc.
  - contradiction.
Qed.

(** C6. When the type read off a delivered stream name has no registered
    handler, its batch is skipped: nothing is called, nothing is logged,
    and the world, the pending set of the group with it, is exactly as
    the read left it.  No pass of the consumer loop ever acknowledges a
    message of such a stream. *)
Theorem unregistered_type_is_skipped self g stream msgs w :
  PyDict.get (event_type_of stream) (handlers self) = None ->
  deliver_stream self g (stream, msgs) w = (Ok tt, w)
  /\ Redis.pending_of stream g (store (snd (deliver_stream self g (stream, msgs) w)))
     = Redis.pending_of stream g (store w)
  /\ forall c w0 id,
       ~ In (Xack stream g id)
            (drop (length (calls w0)) (calls (snd (poll_once self g c w0)))).
Proof.
  intros Hnone. unfold deliver_stream at 1 2. simpl. rewrite Hnone.
  repeat split.
  intros c w0 id Hin.
  destruct (poll_once_reads self g c w0) as (rest & Hcalls & Hacks).
  rewrite Hcalls, drop_app_length in Hin.
  destruct Hin as [Hrd|Hin]; [discriminate|].
  rewrite List.Forall_forall in Hacks. apply Hacks in Hin.
  destruct Hin as [_ Hreg]. now apply Hreg.
Qed.

(** One group creation under its blanket [except]: whatever the client
    answers, the loop body returns and logs nothing. *)
Lemma create_group_guarded s g w :
  let r := try_except (Client.xgroup_create s g) (fun _ => ret tt) w in
  fst r = Ok tt /\ log (snd r) = log w /\ calls (snd r) = calls w ++ [XgroupCreate s g].
Proof.
  unfold try_except, Client.xgroup_create, bind, Client.attempt, ret.
  destruct (fails_next w); simpl; [now repeat split|].
  unfold Redis.group_create.
  destruct (Redis.groups (store w) !! (s, g)); simpl; now repeat split.
Qed.

Lemma create_groups_run self g keys w :
  let r := for_each
             (fun event_type =>
                try_except (Client.xgroup_create (_make_stream self event_type) g)
                           (fun _ => ret tt)) keys w in
  fst r = Ok tt /\ log (snd r) = log w
  /\ calls (snd r) =
       calls w ++ map (fun event_type => XgroupCreate (_make_stream self event_type) g) keys.
Proof.
  revert w. induction keys as [|k keys IH]; intros w; simpl.
  - now rewrite app_nil_r.
  - unfold bind.
    pose proof (create_group_guarded (_make_stream self k) g w) as (Hr & Hl & Hc).
    destruct (try_except _ _ w) as [r w1]. simpl in Hr, Hl, Hc. subst r.
    destruct (IH w1) as (Hr' & Hl' & Hc'). repeat split.
    + exact Hr'.
    + now rewrite Hl'.
    + rewrite Hc', Hc, <- app_assoc. reflexivity.
Qed.

(** C2, as the code has it. On consumer start one group creation is
    attempted per registered event type, and every error it raises, "group
    already exists" or any other, is dropped: the set-up always returns,
    logs nothing, and no type is left out afterwards, for the stream of
    every registered type is among the streams each pass of the loop
    reads. *)
Theorem group_errors_are_all_ignored self g c w :
  let w1 := snd (create_groups self g w) in
  fst (create_groups self g w) = Ok tt
  /\ log w1 = log w
  /\ calls w1 = calls w ++ group_calls self g
  /\ Forall (fun event_type =>
               In (_make_stream self event_type) (PyDict.keys (streams_read self)))
            (PyDict.keys (handlers self))
  /\ forall w2, exists rest,
       calls (snd (poll_once self g c w2)) =
       calls w2 ++ Xreadgroup g c (PyDict.keys (streams_read self)) :: rest.
Proof.
  cbv zeta. unfold create_groups, group_calls.
  destruct (create_groups_run self g (PyDict.keys (handlers self)) w)
    as (Hr & Hl & Hc).
  repeat split; auto.
  - apply List.Forall_forall. intros event_type Hin.
    unfold streams_read.
    apply (PyDictFacts.keys_comprehension (_make_stream self) (fun _ => ">")).
    exact Hin.
  - intros w2. destruct (poll_once_reads self g c w2) as (rest & Hrest & _).
    eauto.
Qed.

(** The type read off an event stream is the last segment of the event
    type, whatever the prefix. *)
Lemma event_type_of_stream self t :
  event_type_of (_make_stream self t) = PyStr.last_item (PyStr.split ":" t).
Proof.
  unfold event_type_of, _make_stream.
  change (":" +:+ t) with (String ":" t).
  apply PyStrFacts.last_item_split_app.
Qed.

Lemma event_type_of_clean stream : PyStr.contains ":" (event_type_of stream) = false.
Proof. apply PyStrFacts.last_item_clean. Qed.

(** What the consumer makes of a stream name.  It reads the event type
    off it as its last colon-separated segment.  For a type without
    [":"] this undoes the stream naming.  A type [t] holding [":"] is
    never what is read off, whatever stream is delivered: what is read
    off its own stream is the last segment of [t], and the entry
    registered under [t] is never the one looked up.  The batch goes to
    whatever is registered under that last segment: with nothing
    registered there it is skipped and the world is unchanged (the
    messages stay pending); with a handler registered there, that handler
    is run on every message of the batch. *)
Theorem stream_name_round_trip self g t msgs w :
  event_type_of (_make_stream self t) = PyStr.last_item (PyStr.split ":" t)
  /\ (if PyStr.contains ":" t
      then forall stream, event_type_of stream <> t
      else event_type_of (_make_stream self t) = t)
  /\ deliver_stream self g (_make_stream self t, msgs) w =
       match PyDict.get (PyStr.last_item (PyStr.split ":" t)) (handlers self) with
       | None => (Ok tt, w)
       | Some h' =>
           for_each (dispatch h' (_make_stream self t) g
                       (PyStr.last_item (PyStr.split ":" t))) msgs w
       end.
Proof.
  repeat split.
  - apply event_type_of_stream.
  - destruct (PyStr.contains ":" t) eqn:Hcolon.
    + intros stream Heq. pose proof (event_type_of_clean stream) as Hc.
      rewrite Heq, Hcolon in Hc. discriminate.
    + rewrite event_type_of_stream. now apply PyStrFacts.last_item_without.
  - unfold deliver_stream. simpl. rewrite event_type_of_stream.
    destruct (PyDict.get _ _); reflexivity.
Qed.

End ConsumerFacts.

(** A run of the consumer on a bus with one type holding a colon, one
    message waiting on its stream. *)
Lemma unregistered_type_is_skipped_witness :
  let self := subscribe (H := Sample.py) "a:b" (Sample.mark "first") Sample.bus0 in
  deliver_stream self "agent-group"
    ("agent:stream:a:b", [(0%nat, [("data", "{}")])]) Sample.quiet
  = (Ok tt, Sample.quiet).
Proof.
  refine (proj1 (unregistered_type_is_skipped (H := Sample.py)
                   (subscribe (H := Sample.py) "a:b" (Sample.mark "first") Sample.bus0)
                   "agent-group" "agent:stream:a:b" [(0%nat, [("data", "{}")])]
                   Sample.quiet _)).
  vm_compute. reflexivity.
Defined.

(** A connection error on group creation is neither raised nor logged,
    and the stream of the type is read all the same. *)
Lemma group_failure_goes_unnoticed :
  let self := subscribe (H := Sample.py) "order.created" (Sample.mark "seen") Sample.bus0 in
  fails_next Sample.broken = Some (ConnectionError "Connection refused")
  /\ fst (create_groups self "agent-group" Sample.broken) = Ok tt
  /\ log (snd (create_groups self "agent-group" Sample.broken)) = []
  /\ calls (snd (start_consumer 1 self "agent-group" "agent-1" Sample.broken)) =
       [XgroupCreate "agent:stream:order.created" "agent-group";
        Xreadgroup "agent-group" "agent-1" ["agent:stream:order.created"]].
Proof. vm_compute. repeat split. Qed.

(** C10. The type read off a stream name is not always the type the
    stream was named for.  With handlers registered under ["a:b"] and
    under ["b"], a message waiting on the stream of ["a:b"] is handed to
    the handler of ["b"], which leaves its mark, and is acknowledged: it
    does not stay pending, and the handler of ["a:b"] is not run. *)
Lemma colon_type_reaches_other_handler :
  let self := subscribe (H := Sample.py) "b" (Sample.mark "second")
                (subscribe (H := Sample.py) "a:b" (Sample.mark "first") Sample.bus0) in
  let w := with_store (Redis.append "agent:stream:a:b" [("data", "{}")] Redis.empty)
             Sample.quiet in
  let w' := snd (start_consumer 1 self "agent-group" "agent-1" w) in
  PyStr.contains ":" "a:b" = true
  /\ calls w' =
       [XgroupCreate "agent:stream:a:b" "agent-group";
        XgroupCreate "agent:stream:b" "agent-group";
        Xreadgroup "agent-group" "agent-1" ["agent:stream:a:b"; "agent:stream:b"];
        Xack "agent:stream:a:b" "agent-group" 0]
  /\ elements (Redis.pending_of "agent:stream:a:b" "agent-group" (store w')) = []
  /\ Redis.streams (store w') !! "first" = None
  /\ Redis.streams (store w') !! "second" = Some [(1%nat, [])].
Proof. vm_compute. repeat split. Qed.

(** ** Request and reply *)

Section RequestFacts.
Context `{Python}.

(** *** The clock and the script *)

Lemma lag_next_nonneg w : 0 <= lag_next w.
Proof. unfold lag_next. destruct (faults w) as [|[d o] fs]; lia. Qed.

Lemma lag_next_up w : faults w = [] -> lag_next w = 0.
Proof. intros Hf. unfold lag_next. now rewrite Hf. Qed.

Lemma lag_next_prompt delta w : 0 <= delta -> prompt delta w -> lag_next w <= delta.
Proof.
  unfold prompt, lag_next. intros Hd Hp.
  destruct (faults w) as [|[d o] fs]; [exact Hd|].
  inversion Hp as [|? ? Hhead Hrest]; subst. simpl in Hhead. lia.
Qed.

Lemma Forall_tl {A} (P : A -> Prop) (l : list A) : Forall P l -> Forall P (tail l).
Proof. intros Hl. destruct l; [exact Hl|]. now inversion Hl. Qed.

Lemma prompt_next delta w w' :
  faults w' = tail (faults w) -> prompt delta w -> prompt delta w'.
Proof. unfold prompt. intros ->. apply Forall_tl. Qed.



(** *** The calls of [request], one by one *)

(** A read either fails at the connection, or comes back after the other
    clients have had their turn; the clock never runs backwards. *)
Lemma xread_cases rs count w :
  (exists e, Client.xread rs count block_ms w = (Raise e, attempted (Xread rs) w))
  \/ (exists msgs w1,
        Client.xread rs count block_ms w = (Ok msgs, w1)
        /\ log w1 = log w /\ now w <= now w1
        /\ calls w1 = calls w ++ [Xread rs]).
Proof.
  unfold Client.xread, bind, Client.attempt.
  destruct (fails_next w) as [e|]; [left; eauto|right].
  pose proof (others_append_frame (attempted (Xread rs) w)) as (Hr & Hl & Hc & Hn & _).
  pose proof (lag_next_nonneg w) as Hlag.
  destruct (Client.others_append _) as [r w1]. simpl in *. subst r.
  destruct (Redis.read rs count (store w1)) as [|m ms].
  - eexists _, _. split; [reflexivity|]. simpl. unfold block_ms.
    repeat split; auto. lia.
  - eexists _, _. split; [reflexivity|]. repeat split; auto. lia.
Qed.

Lemma delete_cases k w :
  (exists e, fails_next w = Some e
             /\ Client.delete k w = (Raise e, attempted (Delete k) w))
  \/ (fails_next w = None
      /\ Client.delete k w =
           (Ok tt, with_store (Redis.del k (store w)) (attempted (Delete k) w))).
Proof.
  unfold Client.delete, bind, Client.attempt.
  destruct (fails_next w) as [e|]; [left; eauto|right; split; reflexivity].
Qed.

Lemma del_absent k r : Redis.streams (Redis.del k r) !! k = None.
Proof. apply lookup_delete_eq. Qed.

(** One pass of the loop of [request]. *)
Lemma request_loop_step fuel rs start timeout w :
  request_loop (S fuel) rs start timeout w =
    if now w - start <? timeout * 1000 then
      match Client.xread rs 1 block_ms w with
      | (Ok messages, w1) =>
          match first_message messages with
          | Some (msg_id, msg_data) =>
              match Client.delete rs w1 with
              | (Ok _, w2) =>
                  match json_loads (PyDict.get_default "data" "{}" msg_data) with
                  | Some v => (Ok (Some v), w2)
                  | None => (Raise (JSONDecodeError "Expecting value"), w2)
                  end
              | (Raise e, w2) => (Raise e, w2)
              | (Fuel, w2) => (Fuel, w2)
              end
          | None =>
              request_loop fuel rs start timeout (slept pause_ms w1)
          end
      | (Raise e, w1) => (Raise e, w1)
      | (Fuel, w1) => (Fuel, w1)
      end
    else (Ok None, w).
Proof.
  simpl. unfold bind at 1. unfold loop_time.
  destruct (now w - start <? timeout * 1000); [|reflexivity].
  unfold bind at 1.
  destruct (Client.xread rs 1 block_ms w) as [[messages|e|] w1]; try reflexivity.
  destruct (first_message messages) as [[msg_id msg_data]|]; [|reflexivity].
  unfold bind at 1.
  destruct (Client.delete rs w1) as [[[]|e|] w2]; try reflexivity.
  unfold bind, loads. destruct (json_loads _); reflexivity.
Qed.

(** What the loop leaves behind: the log untouched, the calls only
    grown, the clock not turned back; and when it returns a reply, the
    response stream already deleted, by its last client call. *)
Lemma request_loop_post fuel rs start timeout w :
  let r := request_loop fuel rs start timeout w in
  log (snd r) = log w /\ extends w (snd r) /\ now w <= now (snd r)
  /\ match fst r with
     | Ok (Some _) =>
         Redis.streams (store (snd r)) !! rs = None
         /\ last (calls (snd r)) = Some (Delete rs)
     | _ => True
     end.
Proof.
  revert w. induction fuel as [|fuel IH]; intros w.
  - simpl. repeat split; [apply extends_refl|lia].
  - cbv zeta. rewrite request_loop_step.
    destruct (now w - start <? timeout * 1000);
      [|simpl; repeat split; [apply extends_refl|lia]].
    pose proof (lag_next_nonneg w) as Hlag.
    destruct (xread_cases rs 1 w) as [[e ->]|(msgs & w1 & -> & Hl & Hn & Hc)].
    { simpl. repeat split; [eexists; reflexivity|lia]. }
    assert (Hext : extends w w1) by (eexists; exact Hc).
    pose proof (lag_next_nonneg w1) as Hlag1.
    destruct (first_message msgs) as [[msg_id msg_data]|].
    + destruct (delete_cases rs w1) as [(e & _ & ->)|[_ ->]].
      * simpl. repeat split; auto; [|lia].
        eapply extends_trans; [exact Hext|]. eexists; reflexivity.
      * assert (Hext2 : extends w (with_store (Redis.del rs (store w1))
                                     (attempted (Delete rs) w1))).
        { eapply extends_trans; [exact Hext|]. eexists; reflexivity. }
        destruct (json_loads _); simpl; repeat split; auto; try lia.
        -- apply del_absent.
        -- apply last_snoc.
    + specialize (IH (slept pause_ms w1)).
      cbv zeta in IH. destruct IH as (Hl' & Hext' & Hn' & Hm').
      repeat split.
      * rewrite Hl'. exact Hl.
      * eapply extends_trans; [exact Hext|exact Hext'].
      * change (now (slept pause_ms w1)) with (now w1 + pause_ms + lag_next w1) in Hn'.
        unfold pause_ms in *. lia.
      * exact Hm'.
Qed.

(** The loop ends within its budget of passes. *)
Lemma request_loop_total fuel rs start timeout w :
  timeout * 1000 - (now w - start) <= 100 * Z.of_nat fuel ->
  fst (request_loop (S fuel) rs start timeout w) <> Fuel.
Proof.
  revert w. induction fuel as [|fuel IH]; intros w Hfuel;
    rewrite request_loop_step;
    destruct (now w - start <? timeout * 1000) eqn:Hcond;
    try (simpl; discriminate);
    apply Z.ltb_lt in Hcond; [lia|].
  destruct (xread_cases rs 1 w) as [[e ->]|(msgs & w1 & -> & Hl & Hn & Hc)];
    [simpl; discriminate|].
  destruct (first_message msgs) as [[msg_id msg_data]|].
  - destruct (delete_cases rs w1) as [(e & _ & ->)|[_ ->]]; [simpl; discriminate|].
    destruct (json_loads _); simpl; discriminate.
  - apply IH. pose proof (lag_next_nonneg w1) as Hlag1.
    simpl. unfold pause_ms. lia.
Qed.

Lemma publish_cases self event_type data correlation_id w :
  match publish self event_type data correlation_id w with
  | (Ok event_id, w') =>
      log w' = log w ++ [(INFO, "Published event " +:+ event_type
                                +:+ " with ID " +:+ event_id)]
      /\ extends w w'
  | (Raise e, w') => extends w w'
  | (Fuel, _) => False
  end.
Proof.
  destruct (json_dumps data) as [body|] eqn:Hbody.
  - destruct (fails_next w) as [e|] eqn:Hnext.
    + rewrite (publish_down _ _ _ _ _ _ _ Hbody Hnext). eexists; reflexivity.
    + rewrite (publish_ok _ _ _ _ _ _ Hbody Hnext). simpl.
      repeat split. eexists; reflexivity.
  - unfold publish, try_except, bind, dumps.
    destruct correlation_id as [[|c s]|]; simpl; rewrite Hbody; simpl;
      exists []; now rewrite app_nil_r.
Qed.

Lemma request_attempt_run self event_type data timeout cid rs w :
  request_attempt self event_type data timeout cid rs w =
    match publish self event_type
            (PyDict.set "response_stream" (py_str rs) data) (Some cid) w with
    | (Ok _, w1) =>
        match request_loop (request_fuel timeout) rs (now w1) timeout w1 with
        | (Ok (Some v), w2) => (Ok v, w2)
        | (Ok None, w2) =>
            (Ok py_None,
             with_log (log w2 ++ [(WARNING, "Request timeout for " +:+ event_type)]) w2)
        | (Raise e, w2) => (Raise e, w2)
        | (Fuel, w2) => (Fuel, w2)
        end
    | (Raise e, w1) => (Raise e, w1)
    | (Fuel, w1) => (Fuel, w1)
    end.
Proof.
  unfold request_attempt, bind at 1.
  destruct (publish _ _ _ _ w) as [[event_id|e|] w1]; try reflexivity.
  unfold bind at 1, loop_time. unfold bind at 1.
  destruct (request_loop (request_fuel timeout) rs (now w1) timeout w1)
    as [[[v|]|e|] w2]; reflexivity.
Qed.

(** The [try] block of [request] ends in one of three ways: a reply was
    read and the last line logged is the publication; the loop ran out
    and the timeout warning was logged, the value being [None]; or
    something raised.  It always ends. *)
Lemma request_attempt_post self event_type data timeout cid rs w :
  let r := request_attempt self event_type data timeout cid rs w in
  extends w (snd r)
  /\ match fst r with
     | Ok v =>
         (exists msg, last (log (snd r)) = Some (INFO, msg))
         \/ (v = py_None
             /\ last (log (snd r)) = Some (WARNING, "Request timeout for " +:+ event_type))
     | Raise e => True
     | Fuel => False
     end.
Proof.
  cbv zeta. rewrite request_attempt_run.
  pose proof (publish_cases self event_type
                (PyDict.set "response_stream" (py_str rs) data) (Some cid) w) as Hp.
  destruct (publish _ _ _ _ w) as [[event_id|e|] w1]; cbn [fst snd];
    [|split; [exact Hp|exact I]|contradiction].
  destruct Hp as (Hlog & Hext).
  pose proof (request_loop_post (request_fuel timeout) rs (now w1) timeout w1) as Hpost.
  pose proof (request_loop_total (Z.to_nat (timeout * 10)) rs (now w1) timeout w1) as Htot.
  fold (request_fuel timeout) in Htot.
  cbv zeta in Hpost. destruct Hpost as (Hl2 & Hext2 & _ & _).
  destruct (request_loop (request_fuel timeout) rs (now w1) timeout w1)
    as [[[v|]|e|] w2]; cbn [fst snd] in *.
  - split; [eapply extends_trans; eauto|].
    left. rewrite Hl2, Hlog, last_snoc. eauto.
  - split; [eapply extends_trans; eauto|].
    right. split; [reflexivity|]. apply last_snoc.
  - split; [eapply extends_trans; eauto|exact I].
  - exfalso. apply Htot; [lia|reflexivity].
Qed.

(** The [except] clause turns every exception of the block into [None]
    and an error line. *)
Lemma request_guarded_post self event_type data timeout cid rs w :
  let r := request_guarded self event_type data timeout cid rs w in
  extends w (snd r)
  /\ exists v, fst r = Ok v
       /\ ((exists msg, last (log (snd r)) = Some (INFO, msg))
           \/ (v = py_None
               /\ exists msg, last (log (snd r)) = Some (WARNING, msg)
                              \/ last (log (snd r)) = Some (ERROR, msg))).
Proof.
  cbv zeta. unfold request_guarded, try_except.
  pose proof (request_attempt_post self event_type data timeout cid rs w) as Hp.
  cbv zeta in Hp. destruct Hp as [Hext Hp].
  destruct (request_attempt _ _ _ _ _ _ w) as [[v|e|] w1]; cbn [fst snd] in *.
  - split; [exact Hext|]. exists v. split; [reflexivity|].
    destruct Hp as [Hinfo|[-> Hwarn]]; [now left|right].
    split; [reflexivity|]. eexists. left. exact Hwarn.
  - split; [exact Hext|]. exists py_None. split; [reflexivity|].
    right. split; [reflexivity|]. eexists. right. apply last_snoc.
  - contradiction.
Qed.

Lemma request_run self event_type data timeout w :
  request self event_type data timeout w =
    match request_guarded self event_type data timeout (uuid4 (drawn w))
            (response_stream_of self (uuid4 (drawn w)))
            (with_drawn (S (drawn w)) w) with
    | (Fuel, w1) => (Fuel, w1)
    | (r, w1) =>
        match Client.delete (response_stream_of self (uuid4 (drawn w))) w1 with
        | (Ok _, w2) => (r, w2)
        | (Raise e, w2) => (Raise e, w2)
        | (Fuel, w2) => (Fuel, w2)
        end
    end.
Proof. reflexivity. Qed.

(** [request] is its guarded [try] block followed by the clean-up: the
    block always hands over a value, and the clean-up decides whether
    the caller gets it. *)
Lemma request_cleanup self event_type data timeout w :
  let rs := response_stream_of self (uuid4 (drawn w)) in
  let g := request_guarded self event_type data timeout (uuid4 (drawn w)) rs
             (with_drawn (S (drawn w)) w) in
  exists v,
    fst g = Ok v
    /\ ((exists msg, last (log (snd g)) = Some (INFO, msg))
        \/ (v = py_None
            /\ exists msg, last (log (snd g)) = Some (WARNING, msg)
                           \/ last (log (snd g)) = Some (ERROR, msg)))
    /\ request self event_type data timeout w =
       match fails_next (snd g) with
       | None =>
           (Ok v, with_store (Redis.del rs (store (snd g)))
                    (attempted (Delete rs) (snd g)))
       | Some e => (Raise e, attempted (Delete rs) (snd g))
       end.
Proof.
  cbv zeta. rewrite request_run.
  set (cid := uuid4 (drawn w)). set (rs := response_stream_of self cid).
  set (w0 := with_drawn (S (drawn w)) w).
  pose proof (request_guarded_post self event_type data timeout cid rs w0) as Hg.
  cbv zeta in Hg. destruct Hg as (_ & v & Hv & Hlog).
  destruct (request_guarded _ _ _ _ _ _ w0) as [r w1]. cbn [fst snd] in *. subst r.
  exists v. split; [reflexivity|]. split; [exact Hlog|].
  unfold Client.delete, bind, Client.attempt.
  destruct (fails_next w1); reflexivity.
Qed.

(** C1, as the code has it. [request] hands its caller [None] both when
    no reply came within the deadline and when publish, a read, the
    delete after a read or the decoding of the reply raised: the
    [except] clause turns every exception of the [try] block into [None]
    and an error line, so that whenever the last line the block logged
    is the timeout warning or an error, its value is [None].  What the
    caller gets is decided by the clean-up in [finally], the last client
    call: when its delete goes through, the caller gets the value of the
    block; when its delete raises, the caller gets that exception
    instead, whatever the block did.  The call always ends. *)
Theorem request_timeout_and_failure_both_None self event_type data timeout w :
  let cid := uuid4 (drawn w) in
  let rs := response_stream_of self cid in
  let g := request_guarded self event_type data timeout cid rs
             (with_drawn (S (drawn w)) w) in
  let r := request self event_type data timeout w in
  (exists v,
     fst g = Ok v
     /\ match last (log (snd g)) with
        | Some (WARNING, _) | Some (ERROR, _) => v = py_None
        | _ => True
        end
     /\ fst r = match fails_next (snd g) with
                | None => Ok v
                | Some e => Raise e
                end
     /\ log (snd r) = log (snd g)
     /\ calls (snd r) = calls (snd g) ++ [Delete rs])
  /\ forall cid rs w0,
       match request_attempt self event_type data timeout cid rs w0 with
       | (Ok v, w1) =>
           request_guarded self event_type data timeout cid rs w0 = (Ok v, w1)
       | (Raise e, w1) =>
           request_guarded self event_type data timeout cid rs w0 =
           (Ok py_None,
            with_log (log w1 ++ [(ERROR, "Request failed for " +:+ event_type
                                         +:+ ": " +:+ exn_str e)]) w1)
       | (Fuel, _) => False
       end.
Proof.
  cbv zeta. split.
  - destruct (request_cleanup self event_type data timeout w) as (v & Hv & Hlog & Hrun).
    exists v. split; [exact Hv|]. split.
    + destruct Hlog as [[msg Hinfo]|[-> _]]; [now rewrite Hinfo|].
      destruct (last _) as [[[] ?]|]; auto.
    + rewrite Hrun. destruct (fails_next _); repeat split.
  - intros cid rs w0. unfold request_guarded, try_except.
    pose proof (request_attempt_post self event_type data timeout cid rs w0) as Hp.
    cbv zeta in Hp. destruct Hp as [_ Hp].
    destruct (request_attempt _ _ _ _ _ _ w0) as [[v|e|] w1]; cbn [fst snd] in Hp;
      [reflexivity|reflexivity|exact Hp].
Qed.

(** C5, as the code has it. Whenever [request] returns a value, its
    response stream does not exist at that moment: the clean-up in
    [finally] is the last client call of every run, and a value is
    returned only when its delete went through.  When that delete raises,
    [request] raises, and the server is as the [try] block left it.  On
    the reply path the stream is deleted before the loop returns,
    straight after the read that found the message.  The call always
    ends.  Nothing is said of what is written to the stream once the
    call has ended. *)
Theorem response_stream_absent_after_request self event_type data timeout w :
  let rs := response_stream_of self (uuid4 (drawn w)) in
  let g := request_guarded self event_type data timeout (uuid4 (drawn w)) rs
             (with_drawn (S (drawn w)) w) in
  let r := request self event_type data timeout w in
  match fst r with
  | Ok _ =>
      fails_next (snd g) = None
      /\ Redis.streams (store (snd r)) !! rs = None
  | Raise e =>
      fails_next (snd g) = Some e
      /\ store (snd r) = store (snd g)
  | Fuel => False
  end
  /\ last (calls (snd r)) = Some (Delete rs)
  /\ forall fuel start w0,
       match request_loop fuel rs start timeout w0 with
       | (Ok (Some _), w1) =>
           Redis.streams (store w1) !! rs = None
           /\ last (calls w1) = Some (Delete rs)
       | _ => True
       end.
Proof.
  cbv zeta.
  destruct (request_cleanup self event_type data timeout w) as (v & _ & _ & Hrun).
  cbv zeta in Hrun. rewrite Hrun. repeat split.
  - destruct (fails_next _) as [e|]; cbn [fst snd];
      (split; [reflexivity|]); [reflexivity|apply del_absent].
  - destruct (fails_next _) as [e|]; cbn [fst snd]; apply last_snoc.
  - intros fuel start w1.
    pose proof (request_loop_post fuel
                  (response_stream_of self (uuid4 (drawn w))) start timeout w1) as Hpost.
    cbv zeta in Hpost. destruct Hpost as (_ & _ & _ & Hm).
    destruct (request_loop fuel _ start timeout w1) as [[[v'|]|e|] w2];
      simpl in Hm; auto.
Qed.

(** *** A request nobody answers *)

Lemma append_other s f rs r :
  s <> rs ->
  Redis.streams (Redis.append s f r) !! rs = Redis.streams r !! rs.
Proof. intros Hne. unfold Redis.append. simpl. now apply lookup_insert_ne. Qed.

Lemma appends_other rs batch r :
  Forall (fun sf : string * PyDict.t string => fst sf <> rs) batch ->
  Redis.streams (fold_left (fun r sf => Redis.append (fst sf) (snd sf) r) batch r) !! rs
  = Redis.streams r !! rs.
Proof.
  revert r. induction batch as [|[s f] batch IH]; intros r Hall; [reflexivity|].
  inversion Hall as [|? ? Hs Hrest]; subst. simpl.
  rewrite (IH _ Hrest). now apply append_other.
Qed.




End RequestFacts.


(** On a connection that answers at once, ten passes of 1100 ms end a
    full block window after a deadline of ten seconds. *)
Example request_timeout_of_ten_seconds :
  now (snd (request (H := Sample.py) Sample.bus0 "order.created" [] 10 Sample.quiet))
  = 11000.
Proof. vm_compute. reflexivity. Qed.


(** A request that timed out and a request whose publish failed hand the
    caller the same value, and neither raises: the failure of the
    publish is in the log only. *)
Lemma timeout_and_failure_look_alike :
  fails_next Sample.broken = Some (ConnectionError "Connection refused")
  /\ fst (request (H := Sample.py) Sample.bus0 "order.created" [] 2 Sample.broken)
     = Ok None
  /\ log (snd (request (H := Sample.py) Sample.bus0 "order.created" [] 2 Sample.broken))
     = [(ERROR, "Failed to publish event order.created: Connection refused");
        (ERROR, "Request failed for order.created: Connection refused")]
  /\ fst (request (H := Sample.py) Sample.bus0 "order.created" [] 2 Sample.quiet)
     = Ok None
  /\ log (snd (request (H := Sample.py) Sample.bus0 "order.created" [] 2 Sample.quiet))
     = [(INFO, "Published event order.created with ID uuid-0");
        (WARNING, "Request timeout for order.created")].
Proof. vm_compute. repeat split. Qed.

(** With the connection down for the publish and still down for the
    clean-up, the failure of the publish is logged and turned into
    [None], and the exception of the clean-up is what the caller gets. *)
Example request_raises_from_cleanup :
  let r := request (H := Sample.py) Sample.bus0 "ping" [] 5 Replies.down_twice in
  fst r = Raise (ConnectionError "Connection refused")
  /\ log (snd r) =
       [(ERROR, "Failed to publish event ping: Connection refused");
        (ERROR, "Request failed for ping: Connection refused")]
  /\ drop 1 (calls (snd r)) = [Delete "agent:stream:response:uuid-0"].
Proof. vm_compute. repeat split. Qed.

(** A reply that comes after the deadline.  The first request times out
    and returns with its response stream absent; the responder then
    writes its reply, while a second request is waiting on a stream of
    its own.  When that one has returned too, the response stream of the
    first exists again and holds the reply, which nobody will read. *)
Lemma late_reply_recreates_response_stream :
  let r1 := request (H := Sample.py) Sample.bus0 "ping" [] 1 Sample.answered in
  let r2 := request (H := Sample.py) Sample.bus0 "ping" [] 1 (snd r1) in
  fst r1 = Ok None
  /\ last (calls (snd r1)) = Some (Delete "agent:stream:response:uuid-0")
  /\ Redis.streams (store (snd r1)) !! "agent:stream:response:uuid-0" = None
  /\ fst r2 = Ok None
  /\ last (calls (snd r2)) = Some (Delete "agent:stream:response:uuid-1")
  /\ Redis.streams (store (snd r2)) !! "agent:stream:response:uuid-0"
     = Some [(2%nat, [("data", "pong")])].
Proof. vm_compute. repeat split. Qed.

(** A reply read while the connection breaks: the delete after the read
    fails and so does the clean-up; [request] raises, and the reply it
    read is still on the response stream. *)
Example read_reply_left_behind :
  let r := request (H := Sample.py) Sample.bus0 "ping" [] 5 Replies.kept in
  fst r = Raise (ConnectionError "Connection reset")
  /\ drop 1 (calls (snd r)) =
       [Xread "agent:stream:response:uuid-0";
        Delete "agent:stream:response:uuid-0";
        Delete "agent:stream:response:uuid-0"]
  /\ Redis.streams (store (snd r)) !! "agent:stream:response:uuid-0"
     = Some [(1%nat, [("data", "pong")])].
Proof. vm_compute. repeat split. Qed.

(** A message published for a type with a colon, with nothing registered
    under its last segment, is delivered once and then stays pending: no
    pass acknowledges it. *)
Example stuck_message_stays_pending :
  let self := subscribe (H := Sample.py) "a:b" (Sample.mark "first") Sample.bus0 in
  let w := with_store (Redis.append "agent:stream:a:b" [("data", "{}")] Redis.empty)
             Sample.quiet in
  let w' := snd (start_consumer 3 self "agent-group" "agent-1" w) in
  elements (Redis.pending_of "agent:stream:a:b" "agent-group" (store w')) = [0%nat]
  /\ calls w' =
       [XgroupCreate "agent:stream:a:b" "agent-group";
        Xreadgroup "agent-group" "agent-1" ["agent:stream:a:b"];
        Xreadgroup "agent-group" "agent-1" ["agent:stream:a:b"];
        Xreadgroup "agent-group" "agent-1" ["agent:stream:a:b"]]
  /\ now w' = 2000.
Proof. vm_compute. repeat split. Qed.

(** A reply read on the second poll: returned at once, the response
    stream deleted after the read and again by the clean-up. *)
Example request_with_reply :
  let r := request (H := Sample.py) Sample.bus0 "ping" [] 5 Sample.answered in
  fst r = Ok (Some "pong")
  /\ drop 1 (calls (snd r)) =
       [Xread "agent:stream:response:uuid-0";
        Xread "agent:stream:response:uuid-0";
        Delete "agent:stream:response:uuid-0";
        Delete "agent:stream:response:uuid-0"]
  /\ now (snd r) = 1100
  /\ Redis.streams (store (snd r)) !! "agent:stream:response:uuid-0" = None.
Proof. vm_compute. repeat split. Qed.

(** A batch of three: the undecodable message is left pending, the two
    handled ones are acknowledged, in order. *)
Example consumer_acknowledges_handled :
  let self := subscribe (H := Sample.py) "t" (Sample.mark "seen") Sample.bus0 in
  let w' := snd (start_consumer 1 self "agent-group" "agent-1" Sample.backlog) in
  calls w' =
    [XgroupCreate "agent:stream:t" "agent-group";
     Xreadgroup "agent-group" "agent-1" ["agent:stream:t"];
     Xack "agent:stream:t" "agent-group" 1;
     Xack "agent:stream:t" "agent-group" 2]
  /\ elements (Redis.pending_of "agent:stream:t" "agent-group" (store w')) = [0%nat].
Proof. vm_compute. repeat split. Qed.

(** With a handler that always raises nothing is acknowledged. *)
Example consumer_keeps_failed :
  let self := subscribe (H := Sample.py) "t" Sample.failing Sample.bus0 in
  let w' := snd (start_consumer 1 self "agent-group" "agent-1" Sample.backlog) in
  calls w' =
    [XgroupCreate "agent:stream:t" "agent-group";
     Xreadgroup "agent-group" "agent-1" ["agent:stream:t"]]
  /\ size (Redis.pending_of "agent:stream:t" "agent-group" (store w')) = 3%nat.
Proof. vm_compute. repeat split. Qed.

(** ** Stream names *)

Section NameFacts.
Context `{Python}.

Lemma append_cancel_l (a b c : string) : a +:+ b = a +:+ c -> b = c.
Proof.
  induction a as [|ch a IH]; simpl; intros Heq; [exact Heq|].
  injection Heq as Heq. now apply IH.
Qed.

(** X1. Within one bus two event types share a stream only when they are
    the same type. *)
Theorem make_stream_injective self t t' :
  _make_stream self t = _make_stream self t' <-> t = t'.
Proof.
  split; [|now intros ->]. unfold _make_stream. intros Heq.
  apply append_cancel_l in Heq. now apply append_cancel_l in Heq.
Qed.

(** X2. Two requests share a response stream only when they drew the same
    correlation id, and the stream of an event type is the response
    stream of an id only for the type [response:<id>]. *)
Theorem response_stream_names self cid cid' t :
  (response_stream_of self cid = response_stream_of self cid' <-> cid = cid')
  /\ (_make_stream self t = response_stream_of self cid <-> t = "response:" +:+ cid).
Proof.
  unfold response_stream_of, _make_stream. split; split.
  - intros Heq. apply append_cancel_l in Heq. now apply append_cancel_l in Heq.
  - now intros ->.
  - intros Heq. apply append_cancel_l in Heq.
    change (":response:" +:+ cid) with (":" +:+ ("response:" +:+ cid)) in Heq.
    now apply append_cancel_l in Heq.
  - now intros ->.
Qed.

(** X3. Registering a handler for [t] changes the lookup of [t] alone,
    keeps the prefix and the running flag, and keeps the registration
    order: the keys are unchanged when [t] was registered already, and
    [t] is added last otherwise. *)
Theorem subscribe_leaves_others t h self t' :
  PyDict.get t' (handlers (subscribe t h self)) =
    (if String.eqb t t' then Some h else PyDict.get t' (handlers self))
  /\ stream_prefix (subscribe t h self) = stream_prefix self
  /\ running (subscribe t h self) = running self
  /\ PyDict.keys (handlers (subscribe t h self)) =
       match PyDict.get t (handlers self) with
       | Some _ => PyDict.keys (handlers self)
       | None => PyDict.keys (handlers self) ++ [t]
       end.
Proof.
  repeat split.
  - simpl. destruct (String.eqb t t') eqn:E.
    + apply String.eqb_eq in E. subst. apply PyDictFacts.get_set_eq.
    + apply String.eqb_neq in E. now apply PyDictFacts.get_set_ne.
  - simpl. induction (handlers self) as [|[k v] d IH]; simpl; [reflexivity|].
    destruct (String.eqb k t) eqn:E; simpl.
    + apply String.eqb_eq in E. now subst.
    + rewrite IH. destruct (PyDict.get t d); reflexivity.
Qed.

End NameFacts.

(** ** Publishing, further *)

Section PublishMore.
Context `{Python}.

(** X4. A payload [json.dumps] refuses never reaches the server: [publish]
    raises the [TypeError] after logging it, without any client call. *)
Theorem publish_unserialisable self event_type data correlation_id w :
  json_dumps data = None ->
  let r := publish self event_type data correlation_id w in
  fst r = Raise (TypeError "Object is not JSON serializable")
  /\ calls (snd r) = calls w
  /\ store (snd r) = store w
  /\ faults (snd r) = faults w
  /\ log (snd r) =
       log w ++ [(ERROR, "Failed to publish event " +:+ event_type
                         +:+ ": Object is not JSON serializable")].
Proof.
  intros Hnone. cbv zeta. unfold publish, try_except, bind, dumps.
  destruct correlation_id as [[|c s]|]; simpl; rewrite Hnone; simpl;
    repeat split.
Qed.

(** X5. Two publications to one event type, the connection up: both
    envelopes are on the stream after what was there, in the order of
    the calls and with increasing ids, and every other stream is
    untouched. *)
Theorem publish_twice_in_order self event_type d1 d2 b1 b2 w :
  json_dumps d1 = Some b1 ->
  json_dumps d2 = Some b2 ->
  faults w = [] ->
  let stream := _make_stream self event_type in
  let r := (let* id1 := publish self event_type d1 None in
            let* id2 := publish self event_type d2 None in
            ret (id1, id2)) w in
  fst r = Ok (uuid4 (drawn w), uuid4 (S (drawn w)))
  /\ Redis.streams (store (snd r)) !! stream =
       Some (default [] (Redis.streams (store w) !! stream)
             ++ [(Redis.next_id (store w),
                  [("event_id", uuid4 (drawn w)); ("event_type", event_type);
                   ("timestamp", isoformat (now w)); ("data", b1)]);
                 (S (Redis.next_id (store w)),
                  [("event_id", uuid4 (S (drawn w))); ("event_type", event_type);
                   ("timestamp", isoformat (now w)); ("data", b2)])])
  /\ forall s, s <> stream ->
       Redis.streams (store (snd r)) !! s = Redis.streams (store w) !! s.
Proof.
  intros Hb1 Hb2 Hup. cbv zeta.
  pose proof (publish_ok_up self event_type d1 None b1 w Hb1 Hup) as Hp1.
  cbv zeta in Hp1.
  match type of Hp1 with _ = (_, ?x) => set (w1 := x) in * end.
  assert (Hup2 : faults w1 = []) by exact Hup.
  pose proof (publish_ok_up self event_type d2 None b2 w1 Hb2 Hup2) as Hp2.
  cbv zeta in Hp2.
  match type of Hp2 with _ = (_, ?x) => set (w2 := x) in * end.
  assert (Hrun : (let* id1 := publish self event_type d1 None in
                  let* id2 := publish self event_type d2 None in
                  ret (id1, id2)) w
                 = (Ok (uuid4 (drawn w), uuid4 (S (drawn w))), w2)).
  { unfold bind. rewrite Hp1, Hp2. reflexivity. }
  rewrite Hrun. subst w2 w1.
  change (stream_prefix self +:+ ":" +:+ event_type)
    with (_make_stream self event_type).
  generalize (_make_stream self event_type). intros stream.
  cbn -[String.append]. repeat split.
  - rewrite lookup_insert_eq, lookup_insert_eq.
    cbn -[String.append]. now rewrite <- app_assoc.
  - intros s Hne.
    rewrite lookup_insert_ne by congruence.
    rewrite lookup_insert_ne by congruence. reflexivity.
Qed.

End PublishMore.

Lemma publish_unserialisable_witness :
  fst (publish (H := Strict.py) (new_bus (H := Strict.py) "agent:stream")
         "order.created" [("note", None)] None Sample.quiet)
  = Raise (TypeError "Object is not JSON serializable").
Proof.
  refine (proj1 (publish_unserialisable (H := Strict.py)
                   (new_bus (H := Strict.py) "agent:stream") "order.created"
                   [("note", None)] None Sample.quiet _)).
  vm_compute. reflexivity.
Defined.

Lemma publish_twice_in_order_witness :
  fst ((let* id1 := publish (H := Sample.py) Sample.bus0 "order.created" [] None in
        let* id2 := publish (H := Sample.py) Sample.bus0 "order.created" [] None in
        ret (id1, id2)) Sample.quiet)
  = Ok ("uuid-0", "uuid-1").
Proof.
  refine (proj1 (publish_twice_in_order (H := Sample.py) Sample.bus0 "order.created"
                   [] [] "{0}" "{0}" Sample.quiet _ _ _));
    vm_compute; reflexivity.
Defined.

(** ** The consumer loop, further *)

Section ConsumerMore.
Context `{Python}.

Lemma poll_once_returns self g c w : fst (poll_once self g c w) = Ok tt.
Proof.
  rewrite poll_once_run.
  pose proof (xreadgroup_ends g c (streams_read self) 10 block_ms w) as Hends.
  destruct (Client.xreadgroup _ _ _ _ _ w) as [[messages|e|] w1]; simpl in Hends.
  - apply for_each_returns. apply deliver_stream_returns.
  - destruct (running self); reflexivity.
  - contradiction.
Qed.

(** X6. An [Exception] a handler raises is caught where the message is
    handled: it is logged as a handler error, the message is not
    acknowledged, the server is as the handler left it, and the loop
    over the batch goes on with the next message.  With the [except]
    clause around the body of the pass, the pass returns normally
    whatever [Exception] is raised in it. *)
Theorem handler_exception_is_caught self g c h stream event_type msg msgs d e st w :
  json_loads (PyDict.get_default "data" "{}" (snd msg)) = Some d ->
  h d (store w) = (Some e, st) ->
  let w' := with_log (log w ++ [(ERROR, "Handler error for " +:+ event_type
                                        +:+ ": " +:+ exn_str e)])
              (with_store st w) in
  dispatch h stream g event_type msg w = (Ok tt, w')
  /\ calls w' = calls w
  /\ for_each (dispatch h stream g event_type) (msg :: msgs) w =
       for_each (dispatch h stream g event_type) msgs w'
  /\ forall w0, fst (poll_once self g c w0) = Ok tt.
Proof.
  intros Hd Hh. cbv zeta.
  assert (Hrun : dispatch h stream g event_type msg w =
                 (Ok tt,
                  with_log (log w ++ [(ERROR, "Handler error for " +:+ event_type
                                              +:+ ": " +:+ exn_str e)])
                    (with_store st w))).
  { rewrite dispatch_run, Hd, Hh. reflexivity. }
  repeat split.
  - exact Hrun.
  - cbn [for_each]. unfold bind at 1. rewrite Hrun. reflexivity.
  - intros w0. apply poll_once_returns.
Qed.

(** With a handler registered, the loop has a stream to read. *)
Lemma streams_read_nonempty self :
  handlers self <> [] -> PyDict.keys (streams_read self) <> [].
Proof.
  intros Hne Hnil.
  destruct (handlers self) as [|[k h] rest] eqn:Eh; [contradiction|].
  pose proof (PyDictFacts.keys_comprehension (_make_stream self)
                (fun _ : string => ">") (PyDict.keys (handlers self)) k) as Hin.
  unfold streams_read in Hnil. rewrite Hnil in Hin.
  apply Hin. rewrite Eh. now left.
Qed.

Lemma xreadgroup_down g c streams count block e w :
  PyDict.keys streams <> [] ->
  fails_next w = Some e ->
  Client.xreadgroup g c streams count block w =
    (Raise e, attempted (Xreadgroup g c (PyDict.keys streams)) w).
Proof.
  intros Hne Hdown. unfold Client.xreadgroup.
  destruct (PyDict.keys streams) as [|s ss]; [contradiction|].
  unfold bind at 1. now rewrite (attempt_raise _ _ _ Hdown).
Qed.

(** X7. On a bus with a handler registered, when the read of a pass
    fails at the connection the pass makes that one client call and
    leaves the server alone; the bus running, it logs the error and
    sleeps a second at least before the loop goes on; once the bus was
    stopped it neither logs nor sleeps. *)
Theorem poll_once_backs_off self g c e w :
  handlers self <> [] ->
  fails_next w = Some e ->
  let rd := Xreadgroup g c (PyDict.keys (streams_read self)) in
  let r := poll_once self g c w in
  fst r = Ok tt
  /\ snd r =
       (if running self
        then slept 1000
               (with_log (log w ++ [(ERROR, "Consumer error: " +:+ exn_str e)])
                  (attempted rd w))
        else attempted rd w)
  /\ store (snd r) = store w
  /\ calls (snd r) = calls w ++ [rd]
  /\ (if running self then now w + 1000 <= now (snd r) else now w <= now (snd r))
  /\ log (snd r) =
       (if running self
        then log w ++ [(ERROR, "Consumer error: " +:+ exn_str e)]
        else log w).
Proof.
  intros Hreg Hdown. cbv zeta. rewrite poll_once_run.
  rewrite (xreadgroup_down g c (streams_read self) 10 block_ms e w
             (streams_read_nonempty self Hreg) Hdown).
  pose proof (lag_next_nonneg w) as Hlag.
  destruct (running self); cbn [fst snd]; repeat split.
  - cbn [bind logger sleep fst snd]. unfold bind, logger, sleep. cbn [now slept with_log attempted].
    match goal with |- context [lag_next (with_log ?l ?x)] =>
      pose proof (lag_next_nonneg (with_log l x)) as Hlag1
    end.
    lia.
  - cbn [ret snd now attempted]. lia.
Qed.

End ConsumerMore.

Lemma handler_exception_is_caught_witness :
  dispatch (H := Sample.py) Sample.failing "agent:stream:t" "agent-group" "t"
    (0%nat, [("data", "x")]) Sample.quiet
  = (Ok tt, with_log [(ERROR, "Handler error for t: boom")] Sample.quiet).
Proof.
  refine (proj1 (handler_exception_is_caught (H := Sample.py) Sample.bus0
                   "agent-group" "agent-1" Sample.failing "agent:stream:t" "t"
                   (0%nat, [("data", "x")]) [] (Some "x") (HandlerError "boom")
                   Redis.empty Sample.quiet _ _));
    reflexivity.
Defined.

Lemma poll_once_backs_off_witness :
  log (snd (poll_once (H := Sample.py)
              (subscribe (H := Sample.py) "order.created" (Sample.mark "seen")
                 (set_running (H := Sample.py) true Sample.bus0))
              "agent-group" "agent-1" Sample.broken))
  = [(ERROR, "Consumer error: Connection refused")].
Proof.
  pose proof (poll_once_backs_off (H := Sample.py)
                (subscribe (H := Sample.py) "order.created" (Sample.mark "seen")
                   (set_running (H := Sample.py) true Sample.bus0))
                "agent-group" "agent-1" (ConnectionError "Connection refused")
                Sample.broken ltac:(discriminate) eq_refl)
    as (_ & _ & _ & _ & _ & Hlog).
  exact Hlog.
Defined.

(** A bus without handlers has nothing to read: the client library
    refuses the empty read before anything is sent, so the state of the
    connection plays no part; the pass logs the refusal and sleeps. *)
Example poll_without_handlers :
  let r := poll_once (H := Sample.py) (set_running (H := Sample.py) true Sample.bus0)
             "agent-group" "agent-1" Sample.broken in
  fst r = Ok tt
  /\ log (snd r) =
       [(ERROR, "Consumer error: XREADGROUP streams must be a non empty dict")]
  /\ calls (snd r) = [Xreadgroup "agent-group" "agent-1" []]
  /\ now (snd r) = 1000.
Proof. vm_compute. repeat split. Qed.

(** ** Consumer groups at start, and what a batch acknowledges *)

Section GroupFacts.
Context `{Python}.

Lemma group_create_keeps s g r :
  Redis.streams r ⊆ Redis.streams (snd (Redis.group_create s g r))
  /\ Redis.groups r ⊆ Redis.groups (snd (Redis.group_create s g r)).
Proof.
  unfold Redis.group_create.
  destruct (Redis.groups r !! (s, g)) eqn:Hg; simpl; [split; reflexivity|].
  split.
  - apply map_subseteq_spec. intros i x Hi.
    destruct (decide (s = i)) as [->|Hne].
    + rewrite lookup_insert_eq, Hi. reflexivity.
    + now rewrite lookup_insert_ne.
  - now apply insert_subseteq.
Qed.

Lemma create_group_step_keeps s g w :
  let w' := snd (try_except (Client.xgroup_create s g) (fun _ => ret tt) w) in
  Redis.streams (store w) ⊆ Redis.streams (store w')
  /\ Redis.groups (store w) ⊆ Redis.groups (store w').
Proof.
  cbv zeta. unfold try_except, Client.xgroup_create, bind, Client.attempt, ret.
  destruct (fails_next w); simpl; [split; reflexivity|].
  pose proof (group_create_keeps s g (store w)) as Hk.
  destruct (Redis.group_create s g (store w)) as [[[]|e|] st]; simpl in *; exact Hk.
Qed.

Lemma create_groups_keeps_run self g keys w :
  let w' := snd (for_each
                   (fun event_type =>
                      try_except (Client.xgroup_create (_make_stream self event_type) g)
                                 (fun _ => ret tt)) keys w) in
  Redis.streams (store w) ⊆ Redis.streams (store w')
  /\ Redis.groups (store w) ⊆ Redis.groups (store w').
Proof.
  revert w. induction keys as [|k keys IH]; intros w; [split; reflexivity|].
  cbv zeta. simpl. unfold bind.
  pose proof (create_group_guarded (_make_stream self k) g w) as (Hr & _ & _).
  pose proof (create_group_step_keeps (_make_stream self k) g w) as [Hs Hg].
  cbv zeta in Hs, Hg.
  destruct (try_except _ _ w) as [r w1]. simpl in Hr, Hs, Hg. subst r.
  destruct (IH w1) as [Hs' Hg']. split; etransitivity; eauto.
Qed.

(** X8. Starting a consumer loses nothing on the server: every stream keeps
    its entries and every group that existed keeps its cursor and its
    pending set, whatever the group creations answer. *)
Theorem create_groups_keeps_server self g w :
  Redis.streams (store w) ⊆ Redis.streams (store (snd (create_groups self g w)))
  /\ Redis.groups (store w) ⊆ Redis.groups (store (snd (create_groups self g w))).
Proof. apply create_groups_keeps_run. Qed.

Lemma create_groups_up_run self g keys w :
  faults w = [] ->
  let w' := snd (for_each
                   (fun event_type =>
                      try_except (Client.xgroup_create (_make_stream self event_type) g)
                                 (fun _ => ret tt)) keys w) in
  faults w' = []
  /\ Forall (fun event_type =>
               is_Some (Redis.groups (store w') !! (_make_stream self event_type, g)))
            keys.
Proof.
  revert w. induction keys as [|k keys IH]; intros w Hup; [now split|].
  cbv zeta. simpl. unfold bind.
  pose proof (create_group_guarded (_make_stream self k) g w) as (Hr & _ & _).
  assert (Hstep : let w1 := snd (try_except
                                   (Client.xgroup_create (_make_stream self k) g)
                                   (fun _ => ret tt) w) in
                  faults w1 = []
                  /\ is_Some (Redis.groups (store w1) !! (_make_stream self k, g))).
  { cbv zeta. unfold try_except, Client.xgroup_create, bind, Client.attempt,
      fails_next, ret. rewrite Hup. simpl. unfold Redis.group_create.
    destruct (Redis.groups (store w) !! (_make_stream self k, g)) eqn:Hg; simpl.
    - rewrite Hup, Hg. split; [reflexivity|eauto].
    - rewrite Hup, lookup_insert_eq. split; [reflexivity|eauto]. }
  cbv zeta in Hstep. destruct Hstep as [Hup1 Hk].
  destruct (try_except _ _ w) as [r w1]. simpl in Hr, Hup1, Hk. subst r.
  destruct (IH w1 Hup1) as [Hup' Hall]. split; [exact Hup'|].
  constructor; [|exact Hall].
  pose proof (create_groups_keeps_run self g keys w1) as [_ Hg].
  cbv zeta in Hg. destruct Hk as [gr Hk].
  exists gr. eapply lookup_weaken; eauto.
Qed.

Lemma keys_comprehension_inv {A V} (key : A -> string) (val : A -> V) xs k :
  In k (PyDict.keys (PyDict.comprehension key val xs)) -> In k (map key xs).
Proof.
  unfold PyDict.comprehension.
  assert (Hacc : forall d,
            In k (PyDict.keys (fold_left (fun d x => PyDict.set (key x) (val x) d) xs d)) ->
            In k (PyDict.keys d) \/ In k (map key xs)).
  { induction xs as [|x xs IH]; simpl; intros d Hin; [now left|].
    destruct (IH _ Hin) as [Hd|Hx]; [|now right; right].
    apply PyDictFacts.keys_set_inv in Hd as [->|Hd]; [right; now left|now left]. }
  intros Hin. destruct (Hacc [] Hin) as [[]|Hx]. exact Hx.
Qed.

(** X9. With the connection up, the set-up leaves a group on the stream of
    every registered type, so that the read of the first pass is not
    refused for a missing group. *)
Theorem create_groups_makes_groups self g w :
  faults w = [] ->
  let w' := snd (create_groups self g w) in
  faults w' = []
  /\ Forall (fun event_type =>
               is_Some (Redis.groups (store w') !! (_make_stream self event_type, g)))
            (PyDict.keys (handlers self))
  /\ forallb (fun s => bool_decide (is_Some (Redis.groups (store w') !! (s, g))))
             (PyDict.keys (streams_read self)) = true.
Proof.
  intros Hup. cbv zeta.
  destruct (create_groups_up_run self g (PyDict.keys (handlers self)) w Hup)
    as [Hup' Hall].
  fold (create_groups self g) in Hup', Hall.
  repeat split; auto.
  apply forallb_forall. intros s Hin. apply bool_decide_eq_true.
  unfold streams_read in Hin. apply keys_comprehension_inv in Hin.
  apply in_map_iff in Hin as (event_type & <- & Het).
  rewrite List.Forall_forall in Hall. now apply Hall.
Qed.

Lemma dispatch_acks h stream g event_type msg w :
  exists l, calls (snd (dispatch h stream g event_type msg w)) = calls w ++ l
            /\ l `sublist_of` [Xack stream g (fst msg)].
Proof.
  eexists. split; [apply dispatch_calls|].
  destruct (handler_succeeds h msg w); [reflexivity|apply sublist_nil_l].
Qed.

Lemma for_each_dispatch_acks h stream g event_type msgs w :
  exists l,
    calls (snd (for_each (dispatch h stream g event_type) msgs w)) = calls w ++ l
    /\ l `sublist_of` map (fun msg => Xack stream g (fst msg)) msgs.
Proof.
  revert w. induction msgs as [|msg msgs IH]; intros w.
  - exists []. split; [simpl; now rewrite app_nil_r|reflexivity].
  - simpl. unfold bind.
    destruct (dispatch_acks h stream g event_type msg w) as (l1 & Hl1 & Hs1).
    pose proof (dispatch_returns h stream g event_type msg w) as Hr.
    destruct (dispatch h stream g event_type msg w) as [r w1].
    simpl in Hl1, Hr. subst r.
    destruct (IH w1) as (l2 & Hl2 & Hs2).
    exists (l1 ++ l2). split; [now rewrite Hl2, Hl1, <- app_assoc|].
    change (Xack stream g msg.1 :: map (fun m => Xack stream g m.1) msgs)
      with ([Xack stream g msg.1] ++ map (fun m => Xack stream g m.1) msgs).
    now apply sublist_app.
Qed.

(** X10. The acknowledgements a batch gives rise to are taken from the
    messages delivered, in delivery order and each at most once: a
    message is never acknowledged twice, and nothing is acknowledged
    that was not delivered. *)
Theorem batch_acks_are_delivered self g messages w :
  exists l,
    calls (snd (for_each (deliver_stream self g) messages w)) = calls w ++ l
    /\ l `sublist_of` acks_due g messages.
Proof.
  revert w. induction messages as [|[stream msgs] messages IH]; intros w.
  - exists []. split; [simpl; now rewrite app_nil_r|reflexivity].
  - simpl. unfold bind.
    assert (Hitem : exists l1,
              calls (snd (deliver_stream self g (stream, msgs) w)) = calls w ++ l1
              /\ l1 `sublist_of` map (fun msg => Xack stream g (fst msg)) msgs).
    { unfold deliver_stream. simpl.
      destruct (PyDict.get _ _).
      - apply for_each_dispatch_acks.
      - exists []. split; [simpl; now rewrite app_nil_r|apply sublist_nil_l]. }
    destruct Hitem as (l1 & Hl1 & Hs1).
    pose proof (deliver_stream_returns self g (stream, msgs) w) as Hr.
    destruct (deliver_stream self g (stream, msgs) w) as [r w1].
    simpl in Hl1, Hr. subst r.
    destruct (IH w1) as (l2 & Hl2 & Hs2).
    exists (l1 ++ l2). split; [now rewrite Hl2, Hl1, <- app_assoc|].
    now apply sublist_app.
Qed.

End GroupFacts.

Lemma create_groups_makes_groups_witness :
  let self := subscribe (H := Sample.py) "order.created" (Sample.mark "seen") Sample.bus0 in
  forallb (fun s => bool_decide
                      (is_Some (Redis.groups
                                  (store (snd (create_groups self "agent-group" Sample.quiet)))
                                !! (s, "agent-group"))))
          (PyDict.keys (streams_read self)) = true.
Proof.
  pose proof (create_groups_makes_groups (H := Sample.py)
                (subscribe (H := Sample.py) "order.created" (Sample.mark "seen") Sample.bus0)
                "agent-group" Sample.quiet eq_refl) as (_ & _ & Hread).
  exact Hread.
Defined.

(** ** Request and reply, further *)

Section RequestMore.
Context `{Python}.

(** A read during which nobody writes to [rs] waits the block window
    and comes back empty. *)
Lemma xread_quiet rs batch rest w :
  faults w = [] ->
  Redis.streams (store w) !! rs = None ->
  arrivals w = batch :: rest ->
  Forall (fun sf : string * PyDict.t string => fst sf <> rs) batch ->
  exists w1,
    Client.xread rs 1 block_ms w = (Ok [], w1)
    /\ faults w1 = [] /\ Redis.streams (store w1) !! rs = None
    /\ arrivals w1 = rest /\ now w1 = now w + block_ms /\ log w1 = log w
    /\ calls w1 = calls w ++ [Xread rs].
Proof.
  intros Hf Hs Ha Hb.
  unfold Client.xread, bind. rewrite (attempt_up _ _ Hf).
  unfold Client.others_append. simpl. rewrite Ha. simpl.
  unfold Redis.read. simpl. rewrite (appends_other _ _ _ Hb), Hs.
  eexists. split; [reflexivity|]. simpl.
  rewrite Hf, (appends_other _ _ _ Hb), Hs. now repeat split.
Qed.

Lemma appends_keep_head rs batch e l r :
  Redis.streams r !! rs = Some (e :: l) ->
  exists l',
    Redis.streams (fold_left (fun r sf => Redis.append (fst sf) (snd sf) r) batch r) !! rs
    = Some (e :: l').
Proof.
  revert l r. induction batch as [|[s f] batch IH]; intros l r Hr; [eauto|].
  simpl. destruct (decide (s = rs)) as [->|Hne].
  - apply (IH (l ++ [(Redis.next_id r, f)])).
    unfold Redis.append, Redis.entry in *. cbn [Redis.streams].
    rewrite lookup_insert_eq, Hr. reflexivity.
  - apply (IH l). rewrite append_other by exact Hne. exact Hr.
Qed.

(** A read during which a first message for [rs] arrives returns that
    message alone, at once. *)
Lemma xread_reply rs pre f post rest w :
  faults w = [] ->
  Redis.streams (store w) !! rs = None ->
  arrivals w = (pre ++ (rs, f) :: post) :: rest ->
  Forall (fun sf : string * PyDict.t string => fst sf <> rs) pre ->
  exists w1 id,
    Client.xread rs 1 block_ms w = (Ok [(rs, [(id, f)])], w1)
    /\ faults w1 = [] /\ now w1 = now w /\ log w1 = log w
    /\ calls w1 = calls w ++ [Xread rs].
Proof.
  intros Hf Hs Ha Hpre.
  unfold Client.xread, bind. rewrite (attempt_up _ _ Hf).
  unfold Client.others_append. simpl. rewrite Ha. simpl.
  rewrite fold_left_app. simpl.
  set (r1 := fold_left _ pre (store w)).
  assert (Hr1 : Redis.streams r1 !! rs = None)
    by (subst r1; now rewrite (appends_other _ _ _ Hpre)).
  assert (Hr2 : Redis.streams (Redis.append rs f r1) !! rs
                = Some [(Redis.next_id r1, f)]).
  { unfold Redis.append, Redis.entry in *. simpl.
    now rewrite lookup_insert_eq, Hr1. }
  destruct (appends_keep_head rs post _ _ _ Hr2) as [l' Hl'].
  unfold Redis.read, Redis.entry in *. simpl. rewrite Hl'. simpl.
  eexists _, _. split; [reflexivity|]. simpl. rewrite Hf. now repeat split.
Qed.

(** The loop, a reply arriving during the read that follows
    [length quiet] empty ones. *)
Lemma request_loop_replied quiet rs start timeout pre f post rest fuel w :
  faults w = [] ->
  Redis.streams (store w) !! rs = None ->
  arrivals w = quiet ++ (pre ++ (rs, f) :: post) :: rest ->
  Forall (Forall (fun sf : string * PyDict.t string => fst sf <> rs)) quiet ->
  Forall (fun sf : string * PyDict.t string => fst sf <> rs) pre ->
  (now w - start) + 1100 * Z.of_nat (length quiet) < timeout * 1000 ->
  (length quiet < fuel)%nat ->
  exists w',
    request_loop fuel rs start timeout w =
      (match json_loads (PyDict.get_default "data" "{}" f) with
       | Some v => Ok (Some v)
       | None => Raise (JSONDecodeError "Expecting value")
       end, w')
    /\ faults w' = [] /\ log w' = log w
    /\ now w' = now w + 1100 * Z.of_nat (length quiet)
    /\ Redis.streams (store w') !! rs = None
    /\ last (calls w') = Some (Delete rs).
Proof.
  revert fuel w. induction quiet as [|batch quiet IH];
    intros fuel w Hf Hs Ha Hq Hpre Htime Hfuel;
    (destruct fuel as [|fuel]; [simpl in Hfuel; lia|]);
    rewrite request_loop_step.
  - simpl in Htime, Ha.
    assert (Hcond : (now w - start <? timeout * 1000) = true) by (apply Z.ltb_lt; lia).
    rewrite Hcond.
    destruct (xread_reply rs pre f post rest w Hf Hs Ha Hpre)
      as (w1 & id & -> & Hf1 & Hn1 & Hl1 & Hc1).
    cbn [first_message].
    unfold Client.delete, bind. rewrite (attempt_up _ _ Hf1).
    eexists. split; [destruct (json_loads _); reflexivity|].
    simpl. repeat split; auto.
    + lia.
    + apply lookup_delete_eq.
    + apply last_snoc.
  - inversion Hq as [|? ? Hbatch Hquiet]; subst.
    simpl in Ha. simpl length in Htime, Hfuel.
    assert (Hcond : (now w - start <? timeout * 1000) = true) by (apply Z.ltb_lt; lia).
    rewrite Hcond.
    destruct (xread_quiet rs batch _ w Hf Hs Ha Hbatch)
      as (w1 & -> & Hf1 & Hs1 & Ha1 & Hn1 & Hl1 & Hc1).
    cbn [first_message]. rewrite (slept_up _ _ Hf1).
    destruct (IH fuel (with_now (now w1 + pause_ms) w1)) as (w' & Hrun & Hf' & Hl' & Hn' & Hs' & Hc');
      auto.
    + simpl. unfold pause_ms, block_ms in *. lia.
    + lia.
    + exists w'. split; [exact Hrun|]. repeat split; auto.
      * now rewrite Hl'.
      * rewrite Hn'. simpl. unfold pause_ms, block_ms in *. lia.
Qed.

(** What [request] comes to once its publish went through and the
    clean-up finds the connection up, by the way the loop ended. *)
Lemma request_via_loop self event_type data timeout w event_id w1 res w2 :
  let cid := uuid4 (drawn w) in
  let rs := response_stream_of self cid in
  publish self event_type (PyDict.set "response_stream" (py_str rs) data)
    (Some cid) (with_drawn (S (drawn w)) w) = (Ok event_id, w1) ->
  request_loop (request_fuel timeout) rs (now w1) timeout w1 = (res, w2) ->
  res <> Fuel ->
  faults w2 = [] ->
  request self event_type data timeout w =
    (Ok (match res with Ok (Some v) => v | _ => py_None end),
     with_store (Redis.del rs (store w2))
       (refused (Delete rs)
          (match res with
           | Ok (Some _) => w2
           | Ok None =>
               with_log (log w2 ++ [(WARNING, "Request timeout for " +:+ event_type)]) w2
           | Raise e =>
               with_log (log w2 ++ [(ERROR, "Request failed for " +:+ event_type
                                            +:+ ": " +:+ exn_str e)]) w2
           | Fuel => w2
           end))).
Proof.
  cbv zeta. intros Hpub Hloop Hres Hup.
  rewrite request_run. unfold request_guarded, try_except.
  rewrite request_attempt_run, Hpub, Hloop.
  destruct res as [[v|]|e|]; [| | |contradiction];
    cbn [logger ret bind]; unfold bind, logger, ret, Client.delete, bind;
    match goal with
    | |- context [Client.attempt ?c ?x] => rewrite (attempt_up c x Hup)
    end; reflexivity.
Qed.

Lemma publish_up self event_type data correlation_id body w :
  json_dumps data = Some body ->
  faults w = [] ->
  exists event_id w1,
    publish self event_type data correlation_id w = (Ok event_id, w1)
    /\ faults w1 = [] /\ arrivals w1 = arrivals w /\ now w1 = now w
    /\ (forall s, s <> _make_stream self event_type ->
          Redis.streams (store w1) !! s = Redis.streams (store w) !! s)
    /\ (exists payload, calls w1 = calls w ++ [Xadd (_make_stream self event_type) payload])
    /\ exists msg, log w1 = log w ++ [(INFO, msg)].
Proof.
  intros Hbody Hup.
  rewrite (publish_ok_up _ _ _ _ _ _ Hbody Hup). cbv zeta.
  eexists _, _. split; [reflexivity|]. simpl. rewrite Hup.
  repeat split; eauto.
  intros s Hne. unfold _make_stream in Hne. now rewrite lookup_insert_ne.
Qed.


(** X12. A reply whose payload does not decode: [request] logs the failure
    and returns [None], the response stream deleted all the same. *)
Theorem request_undecodable_reply self event_type data timeout body
    quiet pre f post rest w :
  let rs := response_stream_of self (uuid4 (drawn w)) in
  json_dumps (PyDict.set "response_stream" (py_str rs) data) = Some body ->
  _make_stream self event_type <> rs ->
  faults w = [] ->
  Redis.streams (store w) !! rs = None ->
  arrivals w = quiet ++ (pre ++ (rs, f) :: post) :: rest ->
  Forall (Forall (fun sf : string * PyDict.t string => fst sf <> rs)) quiet ->
  Forall (fun sf : string * PyDict.t string => fst sf <> rs) pre ->
  1100 * Z.of_nat (length quiet) < timeout * 1000 ->
  json_loads (PyDict.get_default "data" "{}" f) = None ->
  let r := request self event_type data timeout w in
  fst r = Ok py_None
  /\ last (log (snd r)) =
       Some (ERROR, "Request failed for " +:+ event_type +:+ ": Expecting value")
  /\ Redis.streams (store (snd r)) !! rs = None.
Proof.
  cbv zeta. intros Hbody Hne Hup Hs Ha Hq Hpre Htime Hv.
  set (rs := response_stream_of self (uuid4 (drawn w))) in *.
  destruct (publish_up self event_type _ (Some (uuid4 (drawn w))) body
              (with_drawn (S (drawn w)) w) Hbody Hup)
    as (event_id & w1 & Hpub & Hup1 & Ha1 & Hn1 & Hs1 & _ & _).
  destruct (request_loop_replied quiet rs (now w1) timeout pre f post rest
              (request_fuel timeout) w1)
    as (w2 & Hloop & Hup2 & _ & Hn2 & Hs2 & _); auto.
  - rewrite Hs1 by congruence. exact Hs.
  - rewrite Ha1. exact Ha.
  - lia.
  - unfold request_fuel. lia.
  - rewrite Hv in Hloop.
    rewrite (request_via_loop _ _ _ _ _ _ _ _ _ Hpub Hloop) by (auto; discriminate).
    cbn [fst snd]. repeat split.
    + simpl. apply last_snoc.
    + apply lookup_delete_eq.
Qed.


(** X14. When the publish of a request raises, nothing is read: the one
    client call [request] makes after it is the clean-up delete. *)
Theorem request_failed_publish_never_polls self event_type data timeout e w :
  let cid := uuid4 (drawn w) in
  let rs := response_stream_of self cid in
  let p := publish self event_type (PyDict.set "response_stream" (py_str rs) data)
             (Some cid) (with_drawn (S (drawn w)) w) in
  fst p = Raise e ->
  calls (snd (request self event_type data timeout w)) = calls (snd p) ++ [Delete rs].
Proof.
  cbv zeta. intros Hp. rewrite request_run.
  unfold request_guarded, try_except. rewrite request_attempt_run.
  destruct (publish _ _ _ _ _) as [r w1]. simpl in Hp. subst r.
  cbn [logger ret bind snd]. unfold bind, logger, ret.
  match goal with
  | |- context [Client.delete ?k ?x] =>
      destruct (delete_cases k x) as [(e' & _ & ->)|[_ ->]]
  end; reflexivity.
Qed.

End RequestMore.


Lemma request_undecodable_reply_witness :
  let r := request (H := Sample.py) Sample.bus0 "ping" [] 5 Replies.garbled in
  fst r = Ok None
  /\ last (log (snd r)) = Some (ERROR, "Request failed for ping: Expecting value")
  /\ Redis.streams (store (snd r)) !! "agent:stream:response:uuid-0" = None.
Proof.
  apply (request_undecodable_reply (H := Sample.py) Sample.bus0 "ping" [] 5 "{1}"
           [] [] [("data", EmptyString)] [] [] Replies.garbled).
  - vm_compute. reflexivity.
  - vm_compute. discriminate.
  - reflexivity.
  - vm_compute. reflexivity.
  - vm_compute. reflexivity.
  - constructor.
  - constructor.
  - simpl. lia.
  - vm_compute. reflexivity.
Defined.


Lemma request_failed_publish_never_polls_witness :
  calls (snd (request (H := Sample.py) Sample.bus0 "ping" [] 5 Sample.broken))
  = calls (snd (publish (H := Sample.py) Sample.bus0 "ping"
                  (PyDict.set "response_stream" (Some "agent:stream:response:uuid-0") [])
                  (Some "uuid-0") (with_drawn 1 Sample.broken)))
    ++ [Delete "agent:stream:response:uuid-0"].
Proof.
  refine (request_failed_publish_never_polls (H := Sample.py) Sample.bus0 "ping" [] 5
            (ConnectionError "Connection refused") Sample.broken _).
  vm_compute. reflexivity.
Defined.

(** ** What a request leaves alone, and how long it can take *)

Section RequestFrame.
Context `{Python}.

Lemma keeps_refl rs r : keeps_streams_except rs r r.
Proof. intros s l _ Hl. exists []. now rewrite app_nil_r. Qed.

Lemma keeps_trans rs r1 r2 r3 :
  keeps_streams_except rs r1 r2 -> keeps_streams_except rs r2 r3 ->
  keeps_streams_except rs r1 r3.
Proof.
  intros H12 H23 s l Hne Hl.
  destruct (H12 s l Hne Hl) as [l1 Hl1].
  destruct (H23 s _ Hne Hl1) as [l2 Hl2].
  exists (l1 ++ l2). now rewrite app_assoc.
Qed.

Lemma keeps_append rs s f r : keeps_streams_except rs r (Redis.append s f r).
Proof.
  intros s' l _ Hl. unfold Redis.append, Redis.entry in *. cbn [Redis.streams].
  destruct (decide (s = s')) as [->|Hne].
  - rewrite lookup_insert_eq, Hl. eauto.
  - rewrite lookup_insert_ne by exact Hne. exists []. now rewrite app_nil_r.
Qed.

Lemma keeps_appends rs batch r :
  keeps_streams_except rs r
    (fold_left (fun r sf => Redis.append (fst sf) (snd sf) r) batch r).
Proof.
  revert r. induction batch as [|[s f] batch IH]; intros r; [apply keeps_refl|].
  simpl. eapply keeps_trans; [apply keeps_append|apply IH].
Qed.

Lemma keeps_del rs r : keeps_streams_except rs r (Redis.del rs r).
Proof.
  intros s l Hne Hl. unfold Redis.del. cbn [Redis.streams].
  rewrite lookup_delete_ne by congruence. exists []. now rewrite app_nil_r.
Qed.

Lemma others_append_keeps rs w :
  keeps_streams_except rs (store w) (store (snd (Client.others_append w))).
Proof.
  unfold Client.others_append. destruct (arrivals w); [apply keeps_refl|].
  simpl. apply keeps_appends.
Qed.

(** A read comes back in one of three ways: it raised, it waited the
    block window for nothing, or it found a message without waiting;
    each time after the round trip, and with the script moved on. *)
Lemma xread_ways rs w :
  let r := Client.xread rs 1 block_ms w in
  keeps_streams_except rs (store w) (store (snd r))
  /\ faults (snd r) = tail (faults w)
  /\ ((exists e, fst r = Raise e /\ now (snd r) = now w + lag_next w)
      \/ (fst r = Ok [] /\ now (snd r) = now w + lag_next w + block_ms)
      \/ (exists msgs m, fst r = Ok msgs /\ first_message msgs = Some m
                         /\ now (snd r) = now w + lag_next w)).
Proof.
  cbv zeta. unfold Client.xread, bind, Client.attempt.
  destruct (fails_next w) as [e|];
    [split; [apply keeps_refl|split; [reflexivity|left; eauto]]|].
  pose proof (others_append_keeps rs (attempted (Xread rs) w)) as Hk.
  pose proof (others_append_frame (attempted (Xread rs) w)) as (Hr & _ & _ & Hn & Hf).
  destruct (Client.others_append _) as [r w1].
  cbn [fst snd now faults store attempted] in Hr, Hn, Hk, Hf. subst r.
  unfold Redis.read.
  destruct (Redis.streams (store w1) !! rs) as [[|m ms]|]; cbn [fst snd].
  - split; [exact Hk|]. split; [exact Hf|]. right; left.
    split; [reflexivity|]. cbn [now with_now]. now rewrite Hn.
  - split; [exact Hk|]. split; [exact Hf|]. right; right.
    exists [(rs, [m])], m. simpl. now repeat split.
  - split; [exact Hk|]. split; [exact Hf|]. right; left.
    split; [reflexivity|]. cbn [now with_now]. now rewrite Hn.
Qed.

Lemma delete_keeps rs w :
  let r := Client.delete rs w in
  keeps_streams_except rs (store w) (store (snd r))
  /\ now (snd r) = now w + lag_next w
  /\ faults (snd r) = tail (faults w).
Proof.
  cbv zeta. destruct (delete_cases rs w) as [(e & _ & ->)|[_ ->]]; simpl;
    (split; [|split; reflexivity]); [apply keeps_refl|apply keeps_del].
Qed.

(** What the loop of [request] does to the clock, however it ends, on
    a connection whose awaits overshoot by [delta] at most: a pass is
    begun before the deadline and lasts the block window, the pause and
    two overshoots at most. *)
Lemma request_loop_frame delta fuel rs start timeout w :
  0 <= delta ->
  prompt delta w ->
  now w - start <= timeout * 1000 + block_ms + pause_ms + 2 * delta ->
  let r := request_loop fuel rs start timeout w in
  now w <= now (snd r)
  /\ now (snd r) - start <= timeout * 1000 + block_ms + pause_ms + 2 * delta
  /\ prompt delta (snd r).
Proof.
  intros Hd. revert w. induction fuel as [|fuel IH]; intros w Hp Hhi; cbv zeta.
  - simpl. repeat split; [lia|exact Hhi|exact Hp].
  - rewrite request_loop_step.
    destruct (now w - start <? timeout * 1000) eqn:Hcond;
      [|simpl; repeat split; [lia|exact Hhi|exact Hp]].
    apply Z.ltb_lt in Hcond.
    pose proof (lag_next_nonneg w) as Hlag0.
    pose proof (lag_next_prompt delta w Hd Hp) as Hlag.
    pose proof (xread_ways rs w) as (_ & Hf & Hways). cbv zeta in Hf, Hways.
    destruct (Client.xread rs 1 block_ms w) as [r w1]. cbn [fst snd] in *.
    assert (Hp1 : prompt delta w1) by (eapply prompt_next; [exact Hf|exact Hp]).
    pose proof (lag_next_nonneg w1) as Hlag10.
    pose proof (lag_next_prompt delta w1 Hd Hp1) as Hlag1.
    destruct Hways as [(e & -> & Hn)|[[-> Hn]|(msgs & m & -> & Hm & Hn)]].
    + cbn [fst snd]. unfold block_ms, pause_ms in *.
      repeat split; [lia|lia|exact Hp1].
    + cbn [first_message].
      destruct (IH (slept pause_ms w1)) as (Hlo' & Hhi' & Hp').
      * eapply prompt_next; [reflexivity|exact Hp1].
      * cbn [now slept]. unfold pause_ms, block_ms in *. lia.
      * cbn [now slept] in Hlo'. unfold pause_ms, block_ms in *.
        repeat split; [lia|exact Hhi'|exact Hp'].
    + rewrite Hm. destruct m as [msg_id msg_data].
      pose proof (delete_keeps rs w1) as (_ & Hnd & Hfd). cbv zeta in Hnd, Hfd.
      destruct (Client.delete rs w1) as [[[]|e|] w2]; cbn [fst snd] in *;
        try destruct (json_loads _); cbn [fst snd];
        unfold block_ms, pause_ms in *;
        (repeat split; [lia|lia|eapply prompt_next; [exact Hfd|exact Hp1]]).
Qed.

(** What [publish] does to the server, the clock and the script,
    however it ends. *)
Lemma publish_frame rs self event_type data correlation_id w :
  let r := publish self event_type data correlation_id w in
  keeps_streams_except rs (store w) (store (snd r))
  /\ now w <= now (snd r) <= now w + lag_next w
  /\ forall delta, prompt delta w -> prompt delta (snd r).
Proof.
  cbv zeta. pose proof (lag_next_nonneg w) as Hlag.
  destruct (json_dumps data) as [body|] eqn:Hbody.
  - destruct (fails_next w) as [e|] eqn:Hnext.
    + rewrite (publish_down _ _ _ _ _ _ _ Hbody Hnext).
      cbn [snd store now with_log with_store attempted with_drawn].
      change (lag_next (with_drawn _ w)) with (lag_next w).
      split; [apply keeps_refl|]. split; [lia|].
      intros delta Hp. eapply prompt_next; [|exact Hp]. reflexivity.
    + rewrite (publish_ok _ _ _ _ _ _ Hbody Hnext).
      cbn [snd store now with_log with_store attempted with_drawn].
      change (lag_next (with_drawn _ w)) with (lag_next w).
      split; [apply keeps_append|]. split; [lia|].
      intros delta Hp. eapply prompt_next; [|exact Hp]. reflexivity.
  - unfold publish, try_except, bind, dumps.
    destruct correlation_id as [[|c s]|]; simpl; rewrite Hbody; simpl;
      (split; [apply keeps_refl|split; [lia|intros delta Hp; exact Hp]]).
Qed.

(** However a request ends, the time it took is bounded: the overshoot
    of the publish, the loop, and the overshoot of the clean-up. *)
Lemma request_frame delta self event_type data timeout w :
  0 <= timeout ->
  0 <= delta ->
  prompt delta w ->
  let r := request self event_type data timeout w in
  now w <= now (snd r)
    <= now w + timeout * 1000 + block_ms + pause_ms + 4 * delta.
Proof.
  intros Hpos Hd Hp. cbv zeta. rewrite request_run.
  set (cid := uuid4 (drawn w)). set (rs := response_stream_of self cid).
  set (w0 := with_drawn (S (drawn w)) w).
  unfold request_guarded, try_except. rewrite request_attempt_run.
  pose proof (publish_frame rs self event_type
                (PyDict.set "response_stream" (py_str rs) data) (Some cid) w0)
    as (_ & Hnp & Hpp). cbv zeta in Hnp, Hpp.
  specialize (Hpp delta Hp).
  pose proof (lag_next_prompt delta w Hd Hp) as Hlag.
  change (now w0) with (now w) in Hnp.
  change (lag_next w0) with (lag_next w) in Hnp.
  assert (Hfin : forall (r : outcome Any) x,
            prompt delta x ->
            now w <= now x
              <= now w + timeout * 1000 + block_ms + pause_ms + 3 * delta ->
            now w <= now (snd (match Client.delete rs x with
                               | (Ok _, w3) => (r, w3)
                               | (Raise e, w3) => (Raise e, w3)
                               | (Fuel, w3) => (Fuel, w3)
                               end))
              <= now w + timeout * 1000 + block_ms + pause_ms + 4 * delta).
  { intros r x Hpx Hx. pose proof (delete_keeps rs x) as (_ & Hnd & _).
    cbv zeta in Hnd.
    pose proof (lag_next_nonneg x) as Hx0.
    pose proof (lag_next_prompt delta x Hd Hpx) as Hx1.
    destruct (Client.delete rs x) as [[[]|e'|] w3]; cbn [fst snd] in *; lia. }
  destruct (publish _ _ _ _ w0) as [[event_id|e|] w1]; cbn [fst snd] in *.
  - pose proof (request_loop_frame delta (request_fuel timeout) rs (now w1) timeout w1
                  Hd Hpp) as Hloop.
    cbv zeta in Hloop.
    destruct Hloop as (Hlo & Hhi & Hp2); [unfold block_ms, pause_ms; lia|].
    destruct (request_loop _ rs (now w1) timeout w1) as [[[v|]|e|] w2];
      cbn [fst snd logger ret bind] in *; unfold bind, logger, ret;
      try (apply Hfin; [exact Hp2|cbn [now with_log]; lia]).
    cbn [fst snd]. unfold block_ms, pause_ms in *. lia.
  - cbn [logger ret bind]. unfold bind, logger, ret.
    apply Hfin; [exact Hpp|cbn [now with_log]; unfold block_ms, pause_ms; lia].
  - unfold block_ms, pause_ms. lia.
Qed.

Lemma request_loop_keeps fuel rs start timeout w :
  keeps_streams_except rs (store w)
    (store (snd (request_loop fuel rs start timeout w))).
Proof.
  revert w. induction fuel as [|fuel IH]; intros w; [apply keeps_refl|].
  rewrite request_loop_step.
  destruct (now w - start <? timeout * 1000); [|apply keeps_refl].
  pose proof (xread_ways rs w) as [Hkeep _]. cbv zeta in Hkeep.
  destruct (Client.xread rs 1 block_ms w) as [[msgs|e|] w1]; cbn [fst snd] in *;
    try exact Hkeep.
  destruct (first_message msgs) as [[msg_id msg_data]|].
  - pose proof (delete_keeps rs w1) as [Hkd _]. cbv zeta in Hkd.
    destruct (Client.delete rs w1) as [[[]|e|] w2]; cbn [fst snd] in *.
    + destruct (json_loads _); cbn [fst snd];
        (eapply keeps_trans; [exact Hkeep|exact Hkd]).
    + eapply keeps_trans; [exact Hkeep|exact Hkd].
    + eapply keeps_trans; [exact Hkeep|exact Hkd].
  - eapply keeps_trans; [exact Hkeep|]. apply (IH (slept pause_ms w1)).
Qed.

(** X15. A request never removes or reorders what is on any stream other
    than its own response stream: every such stream keeps its entries in
    place, the request envelope and what other clients wrote being
    added after them; and this on every path, reply, timeout or
    failure. *)
Theorem request_keeps_other_streams self event_type data timeout w :
  keeps_streams_except (response_stream_of self (uuid4 (drawn w)))
    (store w) (store (snd (request self event_type data timeout w))).
Proof.
  rewrite request_run.
  set (cid := uuid4 (drawn w)). set (rs := response_stream_of self cid).
  set (w0 := with_drawn (S (drawn w)) w).
  unfold request_guarded, try_except. rewrite request_attempt_run.
  pose proof (publish_frame rs self event_type
                (PyDict.set "response_stream" (py_str rs) data) (Some cid) w0)
    as [Hkp _]. cbv zeta in Hkp.
  assert (Hfin : forall (r : outcome Any) x,
            keeps_streams_except rs (store w) (store x) ->
            keeps_streams_except rs (store w)
              (store (snd (match Client.delete rs x with
                           | (Ok _, w3) => (r, w3)
                           | (Raise e, w3) => (Raise e, w3)
                           | (Fuel, w3) => (Fuel, w3)
                           end)))).
  { intros r x Hx. pose proof (delete_keeps rs x) as [Hkd _]. cbv zeta in Hkd.
    destruct (Client.delete rs x) as [[[]|e'|] w3]; cbn [fst snd] in *;
      eapply keeps_trans; eauto. }
  destruct (publish _ _ _ _ w0) as [[event_id|e|] w1]; cbn [fst snd] in *.
  - pose proof (request_loop_keeps (request_fuel timeout) rs (now w1) timeout w1)
      as Hkl.
    destruct (request_loop _ rs (now w1) timeout w1) as [[[v|]|e|] w2];
      cbn [fst snd logger ret bind] in *; unfold bind, logger, ret;
      try (apply Hfin; cbn [store with_log];
           eapply keeps_trans; [exact Hkp|exact Hkl]).
    cbn [fst snd]. eapply keeps_trans; [exact Hkp|exact Hkl].
  - cbn [logger ret bind]. unfold bind, logger, ret. now apply Hfin.
  - exact Hkp.
Qed.

(** X16. However a request ends, with a reply, a timeout or a failure, on
    a connection whose awaits overshoot their nominal duration by
    [delta] milliseconds at most, it ends within [timeout] seconds, one
    pass of the polling loop (the block window and the pause) and four
    overshoots after it began. *)
Theorem request_bounded_wait self event_type data timeout delta w :
  0 <= timeout ->
  0 <= delta ->
  prompt delta w ->
  let r := request self event_type data timeout w in
  now w <= now (snd r)
    <= now w + timeout * 1000 + block_ms + pause_ms + 4 * delta.
Proof. apply request_frame. Qed.

End RequestFrame.

Lemma request_bounded_wait_witness :
  let r := request (H := Sample.py) Sample.bus0 "ping" [] 5 Replies.kept in
  now Replies.kept <= now (snd r)
    <= now Replies.kept + 5 * 1000 + block_ms + pause_ms + 4 * 0.
Proof.
  apply (request_bounded_wait (H := Sample.py) Sample.bus0 "ping" [] 5 0 Replies.kept).
  - lia.
  - lia.
  - unfold prompt. simpl. repeat (constructor; [simpl; lia|]). constructor.
Defined.

Section RequestEnvelope.
Context `{Python}.

Lemma request_extends_publish self event_type data timeout w event_id w1 :
  publish self event_type
    (PyDict.set "response_stream"
       (py_str (response_stream_of self (uuid4 (drawn w)))) data)
    (Some (uuid4 (drawn w))) (with_drawn (S (drawn w)) w) = (Ok event_id, w1) ->
  extends w1 (snd (request self event_type data timeout w)).
Proof.
  intros Hpub. rewrite request_run.
  set (rs := response_stream_of self (uuid4 (drawn w))) in *.
  unfold request_guarded, try_except. rewrite request_attempt_run, Hpub.
  assert (Hfin : forall (r : outcome Any) x,
            extends w1 x ->
            extends w1 (snd (match Client.delete rs x with
                             | (Ok _, w3) => (r, w3)
                             | (Raise e, w3) => (Raise e, w3)
                             | (Fuel, w3) => (Fuel, w3)
                             end))).
  { intros r x Hx. destruct (delete_cases rs x) as [(e & _ & ->)|[_ ->]]; cbn [snd];
      (eapply extends_trans; [exact Hx|]); eexists; reflexivity. }
  pose proof (request_loop_post (request_fuel timeout) rs (now w1) timeout w1) as Hpost.
  cbv zeta in Hpost. destruct Hpost as (_ & Hext & _ & _).
  destruct (request_loop _ rs (now w1) timeout w1) as [[[v|]|e|] w2];
    cbn [fst snd logger ret bind] in *; unfold bind, logger, ret;
    try (apply Hfin; exact Hext).
  exact Hext.
Qed.

(** X17. The envelope of a request: with the connection up and a non-empty
    uuid drawn, the first client call of [request] appends, to the
    stream of the event type, an envelope whose event id is the
    correlation id that names the response stream, and whose payload is
    the caller's data with [response_stream] set to that stream's name,
    over any value the caller had put under that key. *)
Theorem request_envelope self event_type data timeout body w :
  let cid := uuid4 (drawn w) in
  let rs := response_stream_of self cid in
  let sent := PyDict.set "response_stream" (py_str rs) data in
  fails_next w = None ->
  json_dumps sent = Some body ->
  cid <> EmptyString ->
  PyDict.get "response_stream" sent = Some (py_str rs)
  /\ exists rest,
       calls (snd (request self event_type data timeout w)) =
       calls w ++ Xadd (_make_stream self event_type)
                    [("event_id", cid); ("event_type", event_type);
                     ("timestamp", isoformat (now w)); ("data", body)] :: rest.
Proof.
  cbv zeta. intros Hup Hbody Hcid.
  split; [apply PyDictFacts.get_set_eq|].
  pose proof (publish_ok self event_type _ (Some (uuid4 (drawn w))) body
                (with_drawn (S (drawn w)) w) Hbody Hup) as Hpub.
  cbv zeta in Hpub.
  destruct (request_extends_publish self event_type data timeout w _ _ Hpub)
    as [rest Hrest].
  exists rest. rewrite Hrest. cbn [calls with_log with_store attempted].
  destruct (uuid4 (drawn w)) as [|c s] eqn:Hu; [contradiction|].
  cbn [calls with_drawn]. now rewrite <- app_assoc.
Qed.

End RequestEnvelope.

Lemma request_envelope_witness :
  exists rest,
    calls (snd (request (H := Sample.py) Sample.bus0 "ping"
                  [("response_stream", Some "elsewhere")] 5 Sample.quiet)) =
    calls Sample.quiet ++
      Xadd "agent:stream:ping"
        [("event_id", "uuid-0"); ("event_type", "ping");
         ("timestamp", "0"); ("data", "{1}")] :: rest.
Proof.
  refine (proj2 (request_envelope (H := Sample.py) Sample.bus0 "ping"
                   [("response_stream", Some "elsewhere")] 5 "{1}" Sample.quiet _ _ _)).
  - reflexivity.
  - vm_compute. reflexivity.
  - vm_compute. discriminate.
Defined.

(** ** From publish to handler *)

Section RoundTrip.
Context `{Python}.

Lemma bind_ok {A B} (m : M A) (k : A -> M B) w a w' :
  m w = (Ok a, w') -> bind m k w = k a w'.
Proof. intros Hm. unfold bind. now rewrite Hm. Qed.

Lemma create_group_fresh s g w :
  faults w = [] ->
  Redis.groups (store w) !! (s, g) = None ->
  try_except (Client.xgroup_create s g) (fun _ => ret tt) w =
    (Ok tt,
     with_store
       {| Redis.streams := <[s := default [] (Redis.streams (store w) !! s)]>
                             (Redis.streams (store w));
          Redis.groups := <[(s, g) := {| Redis.cursor := 0; Redis.pending := ∅ |}]>
                            (Redis.groups (store w));
          Redis.next_id := Redis.next_id (store w) |}
       (refused (XgroupCreate s g) w)).
Proof.
  intros Hup Hnone.
  unfold try_except, Client.xgroup_create, bind.
  rewrite (attempt_up _ _ Hup). unfold Redis.group_create.
  change (store (refused (XgroupCreate s g) w)) with (store w).
  rewrite Hnone. reflexivity.
Qed.

Lemma xreadgroup_first s g c m w :
  faults w = [] ->
  arrivals w = [] ->
  Redis.groups (store w) !! (s, g) = Some {| Redis.cursor := 0; Redis.pending := ∅ |} ->
  Redis.streams (store w) !! s = Some [m] ->
  Client.xreadgroup g c [(s, ">")] 10 block_ms w =
    (Ok [(s, [m])],
     with_store (Redis.deliver s g [m] (store w))
       (refused (Xreadgroup g c [s]) w)).
Proof.
  intros Hup Harr Hg Hs.
  unfold Client.xreadgroup. cbn [PyDict.keys map fst].
  unfold bind, Client.others_append.
  rewrite (attempt_up _ _ Hup).
  change (arrivals (refused (Xreadgroup g c [s]) w)) with (arrivals w).
  rewrite Harr. cbn [forallb].
  change (store (refused (Xreadgroup g c [s]) w)) with (store w).
  rewrite Hg. rewrite bool_decide_eq_true_2 by eauto. cbn [andb].
  unfold Redis.read_group, Redis.undelivered, Redis.entry in *.
  rewrite Hg, Hs. cbn. reflexivity.
Qed.

Lemma dispatch_success h stream g event_type msg v w :
  json_loads (PyDict.get_default "data" "{}" (snd msg)) = Some v ->
  fst (h v (store w)) = None ->
  faults w = [] ->
  dispatch h stream g event_type msg w =
    (Ok tt,
     with_store (Redis.ack stream g (fst msg) (snd (h v (store w))))
       (refused (Xack stream g (fst msg)) (with_store (snd (h v (store w))) w))).
Proof.
  intros Hv Hh Hup. rewrite dispatch_run, Hv.
  destruct (h v (store w)) as [o st]. simpl in Hh. subst o.
  rewrite (faults_up _ Hup).
  rewrite (attempted_up _ (with_store st w) Hup). reflexivity.
Qed.

(** X18. An event published for a type without a colon reaches the handler
    registered for that type: on a server where the stream and the group
    are new and nobody else is active, publishing and then starting the
    consumer for one pass makes exactly four client calls (the append,
    the group creation, the group read, the acknowledgement); the
    handler is run on the decoded payload while the message is pending,
    and the server is left as the handler left it with the message
    acknowledged. *)
Theorem published_event_reaches_handler prefix t h data body v g c w :
  let self := subscribe t h (new_bus prefix) in
  let s := _make_stream self t in
  let id := Redis.next_id (store w) in
  let payload := [("event_id", uuid4 (drawn w)); ("event_type", t);
                  ("timestamp", isoformat (now w)); ("data", body)] in
  PyStr.contains ":" t = false ->
  json_dumps data = Some body ->
  json_loads body = Some v ->
  (forall st, fst (h v st) = None) ->
  faults w = [] ->
  arrivals w = [] ->
  Redis.streams (store w) !! s = None ->
  Redis.groups (store w) !! (s, g) = None ->
  let r := (let* _ := publish self t data None in start_consumer 1 self g c) w in
  exists st,
    calls (snd r) =
      calls w ++ [Xadd s payload; XgroupCreate s g; Xreadgroup g c [s]; Xack s g id]
    /\ store (snd r) = Redis.ack s g id (snd (h v st))
    /\ Redis.streams st !! s = Some [(id, payload)]
    /\ id ∈ Redis.pending_of s g st.
Proof.
  cbv zeta. intros Hclean Hbody Hv Hh Hup Harr Hs Hg.
  set (self := subscribe t h (new_bus prefix)) in *.
  set (s := _make_stream self t) in *.
  set (payload := [("event_id", uuid4 (drawn w)); ("event_type", t);
                   ("timestamp", isoformat (now w)); ("data", body)]).
  (* the publication *)
  pose proof (publish_ok_up self t data None body w Hbody Hup) as Hpub.
  cbv zeta in Hpub.
  change (stream_prefix self +:+ ":" +:+ t) with s in Hpub. fold payload in Hpub.
  match type of Hpub with _ = (_, ?x) => set (w1 := x) in * end.
  assert (Hup1 : faults w1 = []) by (subst w1; simpl; now rewrite Hup).
  assert (Harr1 : arrivals w1 = []) by exact Harr.
  assert (Hc1 : calls w1 = calls w ++ [Xadd s payload]) by reflexivity.
  assert (Hs1 : Redis.streams (store w1) !! s = Some [(Redis.next_id (store w), payload)]).
  { subst w1. cbn [store with_log with_store refused with_drawn].
    unfold Redis.append, Redis.entry in Hs |- *. cbn [Redis.streams].
    now rewrite lookup_insert_eq, Hs. }
  assert (Hg1 : Redis.groups (store w1) !! (s, g) = None) by exact Hg.
  clearbody w1.
  (* the group *)
  pose proof (create_group_fresh s g w1 Hup1 Hg1) as Hgroup.
  match type of Hgroup with _ = (_, ?x) => set (w2 := x) in * end.
  assert (Hup2 : faults w2 = []) by (subst w2; simpl; now rewrite Hup1).
  assert (Harr2 : arrivals w2 = []) by exact Harr1.
  assert (Hc2 : calls w2 = calls w1 ++ [XgroupCreate s g]) by reflexivity.
  assert (Hs2 : Redis.streams (store w2) !! s = Some [(Redis.next_id (store w), payload)]).
  { subst w2. cbn [store with_store Redis.streams].
    rewrite lookup_insert_eq.
    unfold Redis.entry, PyDict.t in Hs1 |- *. now rewrite Hs1. }
  assert (Hg2 : Redis.groups (store w2) !! (s, g)
                = Some {| Redis.cursor := 0; Redis.pending := ∅ |}).
  { subst w2. cbn [store with_store Redis.groups]. apply lookup_insert_eq. }
  clearbody w2.
  set (w3 := with_log (log w2 ++ [(INFO, "Event consumer started for "
                                         +:+ pretty (length (handlers (set_running true self)))
                                         +:+ " event types")]) w2).
  (* the read *)
  pose proof (xreadgroup_first s g c _ w3 Hup2 Harr2 Hg2 Hs2) as Hread.
  match type of Hread with _ = (_, ?x) => set (w4 := x) in * end.
  assert (Hup4 : faults w4 = []) by (subst w4 w3; simpl; now rewrite Hup2).
  assert (Hc4 : calls w4 = calls w2 ++ [Xreadgroup g c [s]]) by reflexivity.
  assert (Hs4 : Redis.streams (store w4) !! s = Some [(Redis.next_id (store w), payload)])
    by exact Hs2.
  assert (Hp4 : Redis.next_id (store w) ∈ Redis.pending_of s g (store w4)).
  { subst w4 w3. cbn [store with_store with_log]. unfold Redis.pending_of, Redis.deliver.
    cbn [Redis.groups]. rewrite lookup_alter_eq, Hg2. cbn. set_solver. }
  clearbody w4.
  (* the handler *)
  assert (Hv4 : json_loads (PyDict.get_default "data" "{}"
                              (snd (Redis.next_id (store w), payload))) = Some v).
  { subst payload. cbn. exact Hv. }
  pose proof (dispatch_success h s g t _ v w4 Hv4 (Hh _) Hup4) as Hdisp.
  assert (Htype : event_type_of s = t).
  { subst s. rewrite event_type_of_stream.
    now apply PyStrFacts.last_item_without. }
  set (w5 := with_store (Redis.ack s g (Redis.next_id (store w))
                           (snd (h v (store w4))))
              (refused (Xack s g (Redis.next_id (store w)))
                 (with_store (snd (h v (store w4))) w4))) in *.
  assert (Hdeliver : deliver_stream (set_running true self) g
                       (s, [(Redis.next_id (store w), payload)]) w4 = (Ok tt, w5)).
  { unfold deliver_stream. cbn [fst snd]. rewrite Htype.
    change (PyDict.get t (handlers (set_running true self)))
      with (if String.eqb t t then Some h else None).
    rewrite String.eqb_refl. cbn [for_each].
    rewrite (bind_ok _ _ _ _ _ Hdisp). reflexivity. }
  assert (Hpoll : poll_once (set_running true self) g c w3 = (Ok tt, w5)).
  { rewrite poll_once_run.
    change (streams_read (set_running true self)) with [(s, ">")].
    rewrite Hread. cbn [for_each].
    rewrite (bind_ok _ _ _ _ _ Hdeliver). reflexivity. }
  assert (Hloop : consumer_loop 1 (set_running true self) g c w3 = (Ok tt, w5)).
  { cbn [consumer_loop running set_running].
    rewrite (bind_ok _ _ _ _ _ Hpoll). reflexivity. }
  assert (Hgroups : create_groups (set_running true self) g w1 = (Ok tt, w2)).
  { unfold create_groups.
    change (PyDict.keys (handlers (set_running true self))) with [t].
    cbn [for_each].
    change (_make_stream (set_running true self) t) with s.
    rewrite (bind_ok _ _ _ _ _ Hgroup). reflexivity. }
  assert (Hrun : (let* _ := publish self t data None in start_consumer 1 self g c) w
                 = (Ok (set_running true self), w5)).
  { rewrite (bind_ok _ _ _ _ _ Hpub). unfold start_consumer.
    rewrite (bind_ok _ _ _ _ _ Hgroups).
    rewrite (bind_ok _ _ _ _ w3 (eq_refl : logger INFO _ w2 = (Ok tt, w3))).
    rewrite (bind_ok _ _ _ _ _ Hloop). reflexivity. }
  rewrite Hrun. cbn [snd]. exists (store w4). repeat split.
  - subst w5. cbn [calls with_store refused]. rewrite Hc4, Hc2, Hc1.
    repeat rewrite <- app_assoc. reflexivity.
  - exact Hs4.
  - exact Hp4.
Qed.

End RoundTrip.

Lemma published_event_reaches_handler_witness :
  exists st,
    calls (snd ((let* _ := publish (H := Sample.py)
                             (subscribe (H := Sample.py) "order.created"
                                (Sample.mark "seen") (new_bus (H := Sample.py) "agent:stream"))
                             "order.created" [] None in
                 start_consumer (H := Sample.py) 1
                   (subscribe (H := Sample.py) "order.created"
                      (Sample.mark "seen") (new_bus (H := Sample.py) "agent:stream"))
                   "agent-group" "agent-1") Sample.quiet)) =
    calls Sample.quiet ++
      [Xadd "agent:stream:order.created"
         [("event_id", "uuid-0"); ("event_type", "order.created");
          ("timestamp", "0"); ("data", "{0}")];
       XgroupCreate "agent:stream:order.created" "agent-group";
       Xreadgroup "agent-group" "agent-1" ["agent:stream:order.created"];
       Xack "agent:stream:order.created" "agent-group" 0]
    /\ 0%nat ∈ Redis.pending_of "agent:stream:order.created" "agent-group" st.
Proof.
  destruct (published_event_reaches_handler (H := Sample.py) "agent:stream"
              "order.created" (Sample.mark "seen") [] "{0}" (Some "{0}")
              "agent-group" "agent-1" Sample.quiet)
    as (st & Hcalls & _ & _ & Hpending).
  - vm_compute. reflexivity.
  - vm_compute. reflexivity.
  - vm_compute. reflexivity.
  - intros st. reflexivity.
  - reflexivity.
  - reflexivity.
  - vm_compute. reflexivity.
  - vm_compute. reflexivity.
  - exists st. split; [exact Hcalls|exact Hpending].
Defined.

(** ** The shared client *)

Module RedisClientFacts.
Import RedisClient.

Lemma shut_at_length r objs : length (shut_at r objs) = length objs.
Proof. destruct r; simpl; [apply length_alter|reflexivity]. Qed.

Lemma shut_at_refers is_async r r' objs :
  refers is_async r objs -> refers is_async r (shut_at r' objs).
Proof.
  destruct r as [i|]; [|trivial]. intros (c & Hc & Hk).
  destruct r' as [j|]; simpl; [|eauto].
  destruct (decide (j = i)) as [->|Hne].
  - exists (shut c). split; [|exact Hk].
    rewrite list_lookup_alter_eq, Hc. reflexivity.
  - exists c. split; [|exact Hk]. now rewrite list_lookup_alter_ne.
Qed.

Lemma shut_at_decode r objs :
  Forall (fun c => decode_responses c = true) objs ->
  Forall (fun c => decode_responses c = true) (shut_at r objs).
Proof.
  intros Hall. destruct r as [i|]; [|exact Hall]. simpl.
  apply Forall_alter; [exact Hall|]. intros c _ Hc. exact Hc.
Qed.

Lemma refers_app is_async r objs more :
  refers is_async r objs -> refers is_async r (objs ++ more).
Proof.
  destruct r as [i|]; [|trivial]. intros (c & Hc & Hk).
  exists c. split; [|exact Hk]. now apply lookup_app_l_Some.
Qed.

Lemma step_well_formed cfg st o : well_formed st -> well_formed (step cfg st o).
Proof.
  intros Hwf. destruct o; simpl.
  - unfold get_sync_client. destruct (_sync_instance st) eqn:Es; simpl;
      [exact Hwf|].
    destruct Hwf as (Hs & Ha & Hlen & Hlog & Hdec). rewrite Es in *.
    repeat split; simpl.
    + exists (connect cfg false). split; [|reflexivity].
      rewrite lookup_app_r by lia. now rewrite Nat.sub_diag.
    + now apply refers_app.
    + rewrite length_app, Hlen. simpl. lia.
    + rewrite !length_app, Hlog. reflexivity.
    + apply Forall_app. split; [exact Hdec|]. now repeat constructor.
  - unfold get_async_client. destruct (_async_instance st) eqn:Ea; simpl;
      [exact Hwf|].
    destruct Hwf as (Hs & Ha & Hlen & Hlog & Hdec). rewrite Ea in *.
    repeat split; simpl.
    + now apply refers_app.
    + exists (connect cfg true). split; [|reflexivity].
      rewrite lookup_app_r by lia. now rewrite Nat.sub_diag.
    + rewrite length_app, Hlen. simpl. lia.
    + rewrite !length_app, Hlog. reflexivity.
    + apply Forall_app. split; [exact Hdec|]. now repeat constructor.
  - destruct Hwf as (Hs & Ha & Hlen & Hlog & Hdec).
    unfold close. repeat split; simpl.
    + now do 2 apply shut_at_refers.
    + now do 2 apply shut_at_refers.
    + now rewrite !shut_at_length.
    + now rewrite !shut_at_length.
    + now do 2 apply shut_at_decode.
Qed.

Lemma run_well_formed cfg ops st : well_formed st -> well_formed (run cfg ops st).
Proof.
  revert st. induction ops as [|o ops IH]; intros st Hwf; [exact Hwf|].
  simpl. apply IH. now apply step_well_formed.
Qed.

Lemma initial_well_formed : well_formed initial.
Proof. repeat split; simpl; auto. Qed.

(** X19. However the class is used, it builds each kind of client at most
    once: the objects created are one per attribute set, each creation is
    logged once, every client decodes responses to [str], and a further
    [get_async_client] returns the client of the first and changes
    nothing, whatever the settings have become. *)
Theorem redis_client_is_built_once cfg cfg' ops :
  let st := run cfg ops initial in
  length (objects st) = (count_set (_sync_instance st) + count_set (_async_instance st))%nat
  /\ length (log st) = length (objects st)
  /\ Forall (fun c => decode_responses c = true) (objects st)
  /\ get_async_client cfg' (snd (get_async_client cfg st)) = get_async_client cfg st.
Proof.
  cbv zeta.
  destruct (run_well_formed cfg ops initial initial_well_formed)
    as (_ & _ & Hlen & Hlog & Hdec).
  repeat split; auto.
  unfold get_async_client at 2 3.
  destruct (_async_instance (run cfg ops initial)) eqn:Ea; simpl.
  - unfold get_async_client. now rewrite Ea.
  - reflexivity.
Qed.

(** X20. [close] closes the clients but keeps them as the instances of the
    class: the next [get_async_client] builds nothing and hands out the
    closed client. *)
Theorem closed_client_is_handed_out_again cfg ops :
  let st := run cfg ops initial in
  let r := fst (get_async_client cfg st) in
  let st1 := close (snd (get_async_client cfg st)) in
  get_async_client cfg st1 = (r, st1)
  /\ closed <$> (objects st1 !! r) = Some true.
Proof.
  cbv zeta.
  pose proof (step_well_formed cfg _ GetAsync
                (run_well_formed cfg ops initial initial_well_formed)) as Hwf.
  simpl in Hwf.
  assert (Hinst : _async_instance (snd (get_async_client cfg (run cfg ops initial)))
                  = Some (fst (get_async_client cfg (run cfg ops initial)))).
  { unfold get_async_client.
    destruct (_async_instance (run cfg ops initial)) eqn:Ea; simpl; auto. }
  destruct (get_async_client cfg (run cfg ops initial)) as [r st1].
  simpl in *. destruct Hwf as (_ & Ha & _). rewrite Hinst in Ha.
  destruct Ha as (c & Hc & _). split.
  - unfold get_async_client, close. simpl. now rewrite Hinst.
  - unfold close. simpl. rewrite Hinst. simpl.
    assert (Hshut : alter shut r (objects st1) !! r = Some (shut c))
      by (rewrite list_lookup_alter_eq, Hc; reflexivity).
    destruct (_sync_instance st1) as [j|]; simpl; [|now rewrite Hshut].
    destruct (decide (j = r)) as [->|Hne].
    + rewrite list_lookup_alter_eq, Hshut. reflexivity.
    + rewrite list_lookup_alter_ne by exact Hne. now rewrite Hshut.
Qed.

End RedisClientFacts.

Section StartAgain.
Context `{Python}.

Lemma create_groups_existing self g keys w :
  Forall (fun event_type =>
            is_Some (Redis.groups (store w) !! (_make_stream self event_type, g)))
         keys ->
  store (snd (for_each
                (fun event_type =>
                   try_except (Client.xgroup_create (_make_stream self event_type) g)
                              (fun _ => ret tt)) keys w)) = store w.
Proof.
  revert w. induction keys as [|k keys IH]; intros w Hall; [reflexivity|].
  inversion Hall as [|? ? [gr Hk] Hrest]; subst.
  simpl. unfold bind.
  pose proof (create_group_guarded (_make_stream self k) g w) as (Hr & _ & _).
  assert (Hstore : store (snd (try_except
                                 (Client.xgroup_create (_make_stream self k) g)
                                 (fun _ => ret tt) w)) = store w).
  { unfold try_except, Client.xgroup_create, bind, Client.attempt, ret.
    destruct (fails_next w); [reflexivity|].
    cbn [store attempted]. unfold Redis.group_create. rewrite Hk. reflexivity. }
  destruct (try_except _ _ w) as [r w1]. simpl in Hr, Hstore. subst r.
  rewrite <- Hstore. apply IH. now rewrite Hstore.
Qed.

(** X21. Starting again is harmless: once the groups were created with the
    connection up, a second set-up leaves the server exactly as it was,
    every creation being answered "group already exists", and this
    whether or not the connection still holds. *)
Theorem create_groups_twice self g w :
  faults w = [] ->
  forall w1,
    store w1 = store (snd (create_groups self g w)) ->
    store (snd (create_groups self g w1)) = store w1.
Proof.
  intros Hup w1 Hw1. unfold create_groups at 1.
  apply create_groups_existing. rewrite Hw1.
  destruct (create_groups_up_run self g (PyDict.keys (handlers self)) w Hup)
    as [_ Hall].
  exact Hall.
Qed.

(** X22. A stop requested before the consumer starts is lost, for
    [start_consumer] marks the bus as running first; a loop entered on a
    stopped bus makes no pass; and stopping leaves the registrations and
    the prefix alone. *)
Theorem stop_before_start_is_lost passes self g c w :
  start_consumer passes (stop_consumer self) g c w = start_consumer passes self g c w
  /\ consumer_loop passes (stop_consumer self) g c w = (Ok tt, w)
  /\ handlers (stop_consumer self) = handlers self
  /\ stream_prefix (stop_consumer self) = stream_prefix self.
Proof.
  repeat split. destruct passes; reflexivity.
Qed.

End StartAgain.

Lemma create_groups_twice_witness :
  let self := subscribe (H := Sample.py) "order.created" (Sample.mark "seen") Sample.bus0 in
  store (snd (create_groups self "agent-group"
                (snd (create_groups self "agent-group" Sample.quiet))))
  = store (snd (create_groups self "agent-group" Sample.quiet)).
Proof.
  exact (create_groups_twice (H := Sample.py)
           (subscribe (H := Sample.py) "order.created" (Sample.mark "seen") Sample.bus0)
           "agent-group" Sample.quiet eq_refl _ eq_refl).
Defined.
